(** * tiktok_trends_csv: the fetch / filter / aggregate pipeline

    A shallow embedding of [tiktok_trends_csv.py] and the properties of its
    token parsing, keyword reading, per-keyword fetching, crawl loop and CSV
    sink.

    Modelling conventions.
    - A Python [str] is a Rocq [string]; a character is one of the 256 code
      points an [ascii] can hold (Latin-1).  Whitespace is what
      [str.isspace] says of these code points.
    - A Python [int] is a [Z].
    - A Python [set] of strings is a [gset string]; a [list] is a [list]
      extended at its end; a [dict] is an association list in insertion
      order whose keys are distinct.
    - A call that can raise returns an [outcome]; the code that talks to the
      outside (sessions, the hashtag stream, the output file) runs in a small
      trace monad [M] that records what was done before the exception.
    - The world of a run is its environment variables, its input files, the
      platform, and what opening each output path for writing does.
    - Console output ([print]) is not modelled. *)

From Stdlib Require Import Ascii String QArith.
From stdpp Require Import base strings list gmap.

Set Warnings "-register-all,-clear-no-such-hyp,-level-tolerance".

Open Scope string_scope.
Open Scope Z_scope.
Open Scope list_scope.

(** ** Exceptions and outcomes *)

Inductive exn : Type :=
  | RuntimeError
  | FileNotFoundError
  | ValueError
  | TypeError
  | AttributeError
  | OverflowError
  | OtherException (name : string)   (* any other subclass of Exception *)
  | NotAnException (name : string).  (* BaseException only: KeyboardInterrupt,
                                        asyncio.CancelledError, SystemExit *)

(** [except Exception] catches every class but the last one. *)
Definition is_Exception (e : exn) : bool :=
  match e with
  | NotAnException _ => false
  | _ => true
  end.

Inductive outcome (A : Type) : Type :=
  | Return (a : A)
  | Raise (e : exn).
Arguments Return {A} a.
Arguments Raise {A} e.

Definition obind {A B} (o : outcome A) (k : A → outcome B) : outcome B :=
  match o with
  | Return a => k a
  | Raise e => Raise e
  end.

Notation "'let*' x ':=' o 'in' k" := (obind o (λ x, k))
  (at level 10, x name, o at level 100, k at level 200, only parsing).

(** ** Strings *)

Module PyStr.

(** [str.isspace] on one character (code points below 256). *)
Definition isspace (c : ascii) : bool :=
  let n := N_of_ascii c in
  ((9 <=? n) && (n <=? 13) || (28 <=? n) && (n <=? 32)
   || (n =? 133) || (n =? 160))%N.

Fixpoint lstrip_chars (p : ascii → bool) (s : string) : string :=
  match s with
  | String c s' => if p c then lstrip_chars p s' else s
  | EmptyString => EmptyString
  end.

Fixpoint rstrip_chars (p : ascii → bool) (s : string) : string :=
  match s with
  | EmptyString => EmptyString
  | String c s' =>
      match rstrip_chars p s' with
      | EmptyString => if p c then EmptyString else String c EmptyString
      | r => String c r
      end
  end.

(** [s.strip()] *)
Definition strip (s : string) : string :=
  rstrip_chars isspace (lstrip_chars isspace s).

(** [s.lstrip("#")] *)
Definition lstrip_hash (s : string) : string :=
  lstrip_chars (λ c, Ascii.eqb c "#") s.

(** [str.lower] on one character: A-Z and the Latin-1 capitals. *)
Definition lower_char (c : ascii) : ascii :=
  let n := N_of_ascii c in
  if ((65 <=? n) && (n <=? 90)
      || (192 <=? n) && (n <=? 222) && negb (n =? 215))%N
  then ascii_of_N (n + 32) else c.

Fixpoint lower (s : string) : string :=
  match s with
  | EmptyString => EmptyString
  | String c s' => String (lower_char c) (lower s')
  end.

(** A separator of [re.split(r"[\s,;]+", value)]. *)
Definition is_sep (c : ascii) : bool :=
  isspace c || Ascii.eqb c "," || Ascii.eqb c ";".

Definition starts_with_sep (s : string) : bool :=
  match s with
  | String c _ => is_sep c
  | EmptyString => false
  end.

(** [cur] is the piece read so far; a run of separators ends it. *)
Fixpoint split_loop (cur : string) (s : string) : list string :=
  match s with
  | EmptyString => [cur]
  | String c s' =>
      if is_sep c then
        if starts_with_sep s' then split_loop cur s'
        else cur :: split_loop "" s'
      else split_loop (cur +:+ String c "") s'
  end.

(** [re.split(r"[\s,;]+", value)] *)
Definition re_split_seps (value : string) : list string :=
  split_loop "" value.

End PyStr.

(** ** TokenSet: [parse_ms_tokens] and [get_ms_tokens] *)

Fixpoint parse_ms_tokens_loop
    (raw_tokens : list string) (seen : gset string) (tokens : list string)
    : list string :=
  match raw_tokens with
  | [] => tokens
  | raw :: rest =>
      let trimmed := PyStr.strip raw in
      if String.eqb trimmed "" || bool_decide (trimmed ∈ seen)
      then parse_ms_tokens_loop rest seen tokens
      else parse_ms_tokens_loop rest ({[trimmed]} ∪ seen) (tokens ++ [trimmed])
  end.

Definition parse_ms_tokens (raw_tokens : list string) : list string :=
  parse_ms_tokens_loop raw_tokens ∅ [].

(** [os.getenv]: the process environment. *)
Definition environ : Type := string → option string.

Definition ms_token_env_names : list string :=
  ["ms_token"; "ms_tokens"; "MS_TOKEN"; "MS_TOKENS"].

Fixpoint collect_raw_tokens
    (getenv : environ) (env_names : list string) (collected : list string)
    : list string :=
  match env_names with
  | [] => collected
  | env_name :: rest =>
      match getenv env_name with
      | None => collect_raw_tokens getenv rest collected
      | Some value =>
          if String.eqb value "" then collect_raw_tokens getenv rest collected
          else collect_raw_tokens getenv rest
                 (collected ++ PyStr.re_split_seps value)
      end
  end.

Definition get_ms_tokens (getenv : environ) : outcome (list string) :=
  let collected := collect_raw_tokens getenv ms_token_env_names [] in
  let tokens := parse_ms_tokens collected in
  match tokens with
  | [] => Raise RuntimeError
  | _ => Return tokens
  end.

Definition ensure_ms_tokens (getenv : environ) : outcome (list string) :=
  get_ms_tokens getenv.

(** ** KeywordSource: [read_keywords] and [read_keywords_safe] *)

(** The files of the input side: a path that exists holds the rows
    [csv.reader] yields for it. *)
Definition csv_files : Type := string → option (list (list string)).

Definition header_stoplist : gset string :=
  {[ "keyword"; "palabra"; "hashtag" ]}.

Fixpoint read_keywords_loop
    (rows : list (list string)) (keywords : list string) : list string :=
  match rows with
  | [] => keywords
  | row :: rest =>
      match row with
      | [] => read_keywords_loop rest keywords
      | cell :: _ =>
          let keyword := PyStr.strip cell in
          if String.eqb keyword "" then read_keywords_loop rest keywords
          else if bool_decide (PyStr.lower keyword ∈ header_stoplist)
          then read_keywords_loop rest keywords
          else read_keywords_loop rest (keywords ++ [keyword])
      end
  end.

(** [csv_path.open] raises when there is no such file. *)
Definition read_keywords (fs : csv_files) (csv_path : string)
    : outcome (list string) :=
  match fs csv_path with
  | None => Raise FileNotFoundError
  | Some rows => Return (read_keywords_loop rows [])
  end.

Definition read_keywords_safe (fs : csv_files) (path : string)
    : outcome (list string) :=
  match fs path with
  | None => Raise FileNotFoundError
  | Some _ =>
      let* keywords := read_keywords fs path in
      match keywords with
      | [] => Raise RuntimeError
      | _ => Return keywords
      end
  end.

(** ** Python values

    What [video.as_dict] can hold: the values of a JSON document. *)

Inductive pyfloat : Type :=
  | FNan
  | FInf (negative : bool)
  | FFinite (q : Q).

Inductive pyval : Type :=
  | VNone
  | VBool (b : bool)
  | VInt (n : Z)
  | VFloat (f : pyfloat)
  | VStr (s : string)
  | VList (l : list pyval)
  | VDict (d : list (string * pyval)).

Definition dict : Type := list (string * pyval).

Module Py.

Fixpoint lookup (d : dict) (key : string) : option pyval :=
  match d with
  | [] => None
  | (k, v) :: d' => if String.eqb k key then Some v else lookup d' key
  end.

(** [d.get(key, dflt)] on a dict *)
Definition dict_get (d : dict) (key : string) (dflt : pyval) : pyval :=
  default dflt (lookup d key).

Definition keys (d : dict) : list string := map fst d.

(** [bool(v)] *)
Definition truthy (v : pyval) : bool :=
  match v with
  | VNone => false
  | VBool b => b
  | VInt n => negb (n =? 0)
  | VFloat (FFinite q) => negb (Qnum q =? 0)
  | VFloat _ => true
  | VStr s => negb (String.eqb s "")
  | VList l => match l with [] => false | _ => true end
  | VDict d => match d with [] => false | _ => true end
  end.

(** [v or w] *)
Definition or (v w : pyval) : pyval := if truthy v then v else w.

(** [v.get(key, dflt)]: only a dict has the method. *)
Definition get (v : pyval) (key : string) (dflt : pyval) : outcome pyval :=
  match v with
  | VDict d => Return (dict_get d key dflt)
  | _ => Raise AttributeError
  end.

Definition digit_of (c : ascii) : option Z :=
  let n := N_of_ascii c in
  if ((48 <=? n) && (n <=? 57))%N then Some (Z.of_N (n - 48)) else None.

(** Decimal digits, single underscores allowed between two digits. *)
Fixpoint int_digits (s : string) (acc : Z) (after_digit : bool) : option Z :=
  match s with
  | EmptyString => if after_digit then Some acc else None
  | String c s' =>
      match digit_of c with
      | Some d => int_digits s' (10 * acc + d) true
      | None =>
          if Ascii.eqb c "_" && after_digit then int_digits s' acc false
          else None
      end
  end.

(** The blanks [int] skips around a literal. *)
Definition int_space (c : ascii) : bool :=
  let n := N_of_ascii c in
  ((9 <=? n) && (n <=? 13) || (n =? 32) || (n =? 133) || (n =? 160))%N.

(** [int(s)] for a string, base 10 (the length limit of recent CPython
    versions on very long literals is left out). *)
Definition int_of_str (s : string) : option Z :=
  let t := PyStr.rstrip_chars int_space (PyStr.lstrip_chars int_space s) in
  match t with
  | String "+" r => int_digits r 0 false
  | String "-" r => Z.opp <$> int_digits r 0 false
  | _ => int_digits t 0 false
  end.

(** [int(v)] *)
Definition int (v : pyval) : outcome Z :=
  match v with
  | VNone => Raise TypeError
  | VBool b => Return (if b then 1 else 0)
  | VInt n => Return n
  | VFloat FNan => Raise ValueError
  | VFloat (FInf _) => Raise OverflowError
  | VFloat (FFinite q) => Return (Z.quot (Qnum q) (Z.pos (Qden q)))
  | VStr s =>
      match int_of_str s with
      | Some n => Return n
      | None => Raise ValueError
      end
  | VList _ | VDict _ => Raise TypeError
  end.

End Py.

(** ** The platform client

    A [video] is what the hashtag stream yields; [upstream] is the lazy
    sequence itself, which ends, yields one more video, or fails. *)

Record video : Type := { as_dict : dict; url : pyval }.

Inductive upstream : Type :=
  | Exhausted
  | Yield (v : video) (rest : upstream)
  | Fails (e : exn).

(** An upstream that yields [vs] and then goes on as [rest]. *)
Fixpoint prepend (vs : list video) (rest : upstream) : upstream :=
  match vs with
  | [] => rest
  | v :: vs' => Yield v (prepend vs' rest)
  end.

Definition of_list (vs : list video) : upstream := prepend vs Exhausted.

Record TikTokApi : Type := {
  (* create_sessions(ms_tokens, num_sessions, sleep_after, browser) *)
  create_sessions : list string → nat → Z → string → outcome unit;
  (* hashtag(name).videos(count) *)
  hashtag_videos : string → Z → upstream
}.

(** ** Effects: a trace of what the run did, and how it ended *)

Inductive event : Type :=
  | ApiEnter
  | CreateSessions (ms_tokens : list string) (num_sessions : nat)
                   (sleep_after : Z) (browser : string)
  | HashtagVideos (name : string) (count : Z)
  | Yielded (v : video)
  | ApiExit
  | WriteFile (path : string) (records : list (list pyval)).

Definition M (A : Type) : Type := list event * outcome A.

Definition ret {A} (a : A) : M A := ([], Return a).

Definition bind {A B} (m : M A) (k : A → M B) : M B :=
  match m with
  | (t, Return a) => let '(t', r) := k a in (t ++ t', r)
  | (t, Raise e) => (t, Raise e)
  end.

Definition emit (ev : event) : M unit := ([ev], Return tt).

Definition lift {A} (o : outcome A) : M A := ([], o).

Notation "x <- m ;; k" := (bind m (λ x, k))
  (at level 100, m at next level, right associativity, only parsing).
Notation "m ;;; k" := (bind m (λ _, k))
  (at level 100, right associativity, only parsing).

(** [try: m  except Exception: (nothing)] *)
Definition catch_Exception {A} (m : M A) : M (option A) :=
  match m with
  | (t, Return a) => (t, Return (Some a))
  | (t, Raise e) => if is_Exception e then (t, Return None) else (t, Raise e)
  end.

Definition trace {A} (m : M A) : list event := fst m.
Definition result {A} (m : M A) : outcome A := snd m.

(** ** KeywordFetcher: [fetch_for_keyword] *)

Definition DEFAULT_MIN_LIKES : Z := 25000.
Definition DEFAULT_MAX_PER_KEYWORD : Z := 20.
Definition FETCH_COUNT_PER_KEYWORD : Z := 200.

(** [stats = data.get("stats") or {}] *)
Definition video_stats (v : video) : pyval :=
  Py.or (Py.dict_get (as_dict v) "stats" VNone) (VDict []).

(** [like_count = int(stats.get("diggCount", 0) or 0)] *)
Definition video_like_count (v : video) : outcome Z :=
  let* digg := Py.get (video_stats v) "diggCount" (VInt 0) in
  Py.int (Py.or digg (VInt 0)).

(** [author = data.get("author") or {}] *)
Definition video_author (v : video) : pyval :=
  Py.or (Py.dict_get (as_dict v) "author" VNone) (VDict []).

(** One turn of the loop body up to [results.append]: [None] is the
    [continue] of a video below the threshold. *)
Definition video_row (keyword : string) (min_likes : Z) (v : video)
    : outcome (option dict) :=
  let data := as_dict v in
  let stats := video_stats v in
  let* like_count := video_like_count v in
  if like_count <? min_likes then Return None
  else
    let author := video_author v in
    let* comment_count := Py.get stats "commentCount" VNone in
    let* share_count := Py.get stats "shareCount" VNone in
    let* play_count := Py.get stats "playCount" VNone in
    let* author_uniqueId := Py.get author "uniqueId" VNone in
    let* author_nickname := Py.get author "nickname" VNone in
    Return (Some
      [ ("keyword", VStr keyword);
        ("video_id", Py.dict_get data "id" VNone);
        ("description", Py.dict_get data "desc" VNone);
        ("like_count", VInt like_count);
        ("comment_count", comment_count);
        ("share_count", share_count);
        ("play_count", play_count);
        ("author_uniqueId", author_uniqueId);
        ("author_nickname", author_nickname);
        ("url", url v) ]).

Fixpoint fetch_loop
    (videos : upstream) (keyword : string) (min_likes max_results : Z)
    (results : list dict) : M (list dict) :=
  match videos with
  | Exhausted => ret results
  | Fails e => lift (Raise e)
  | Yield v rest =>
      emit (Yielded v) ;;;
      row <- lift (video_row keyword min_likes v) ;;
      match row with
      | None => fetch_loop rest keyword min_likes max_results results
      | Some row =>
          let results := results ++ [row] in
          if Z.of_nat (length results) >=? max_results then ret results
          else fetch_loop rest keyword min_likes max_results results
      end
  end.

Definition fetch_for_keyword
    (api : TikTokApi) (keyword : string) (min_likes max_results : Z)
    : M (list dict) :=
  let normalized := PyStr.lstrip_hash keyword in
  emit (HashtagVideos normalized FETCH_COUNT_PER_KEYWORD) ;;;
  fetch_loop (hashtag_videos api normalized FETCH_COUNT_PER_KEYWORD)
             keyword min_likes max_results [].

(** ** ResultSink: [write_rows] *)

Definition DEFAULT_FIELDNAMES : list string :=
  [ "keyword"; "video_id"; "description"; "like_count"; "comment_count";
    "share_count"; "play_count"; "author_uniqueId"; "author_nickname"; "url" ].

(** A written file is its records, each a list of cells; a cell is the value
    handed to [csv.writer] (its text form is not modelled). *)
Definition csv_records : Type := list (list pyval).

(** [DictWriter.writerow]: a key outside [fieldnames] raises, a missing
    field is written as the empty string. *)
Definition dict_to_list (fieldnames : list string) (row : dict)
    : outcome (list pyval) :=
  if forallb (λ k, bool_decide (k ∈ fieldnames)) (Py.keys row)
  then Return (map (λ key, Py.dict_get row key (VStr "")) fieldnames)
  else Raise ValueError.

(** The loop over [rows_list]; [written] is what the file holds so far. *)
Fixpoint write_loop
    (fieldnames : list string) (rows : list dict) (written : csv_records)
    : csv_records * outcome unit :=
  match rows with
  | [] => (written, Return tt)
  | row :: rest =>
      match dict_to_list fieldnames row with
      | Return record => write_loop fieldnames rest (written ++ [record])
      | Raise e => (written, Raise e)
      end
  end.

(** The files of the output side: what [output_path.open("w", ...)] does
    for a path, open it or raise (a missing directory, a directory, no
    permission). *)
Definition output_files : Type := string → outcome unit.

(** When the open raises nothing is written; otherwise the file holds, when
    the [with] block is left, the header and the records written so far
    (the writes to a file that was opened are taken to succeed). *)
Definition write_rows
    (fs : output_files) (output_path : string) (rows : list dict) : M Z :=
  let rows_list := rows in
  let fieldnames :=
    match rows_list with
    | first :: _ => Py.keys first
    | [] => DEFAULT_FIELDNAMES
    end in
  lift (fs output_path) ;;;
  let '(records, r) := write_loop fieldnames rows_list [map VStr fieldnames] in
  emit (WriteFile output_path records) ;;;
  lift r ;;;
  ret (Z.of_nat (length rows_list)).

(** ** CrawlOrchestrator: [main_async] *)

Record Namespace : Type := {
  input : string;
  output : string;
  min_likes : Z;
  max_per_keyword : Z
}.

Record world : Type := {
  getenv : environ;
  files : csv_files;
  platform : TikTokApi;
  outputs : output_files
}.

(** The [for keyword in keywords] loop. *)
Fixpoint crawl_loop
    (api : TikTokApi) (keywords : list string) (min_likes max_per_keyword : Z)
    (aggregated : list dict) : M (list dict) :=
  match keywords with
  | [] => ret aggregated
  | keyword :: rest =>
      fetched <- catch_Exception
                   (fetch_for_keyword api keyword min_likes max_per_keyword) ;;
      match fetched with
      | None => crawl_loop api rest min_likes max_per_keyword aggregated
      | Some rows =>
          crawl_loop api rest min_likes max_per_keyword (aggregated ++ rows)
      end
  end.

(** [async with TikTokApi() as api: body]: the exit runs on every path. *)
Definition with_api {A} (body : M A) : M A :=
  let '(t, r) := body in (ApiEnter :: t ++ [ApiExit], r).

Definition main_async (w : world) (args : Namespace) : M unit :=
  let input_path := input args in
  let output_path := output args in
  let min_likes := min_likes args in
  let max_per_keyword := max_per_keyword args in
  ms_tokens <- lift (ensure_ms_tokens (getenv w)) ;;
  keywords <- lift (read_keywords_safe (files w) input_path) ;;
  aggregated <- with_api (
    let api := platform w in
    let browser := default "chromium" (getenv w "TIKTOK_BROWSER") in
    emit (CreateSessions ms_tokens (length ms_tokens) 3 browser) ;;;
    lift (create_sessions api ms_tokens (length ms_tokens) 3 browser) ;;;
    crawl_loop api keywords min_likes max_per_keyword []) ;;
  total <- write_rows (outputs w) output_path aggregated ;;
  ret tt.

(** ** Vocabulary of the statements *)

(** The functional reading of the [seen] / [tokens] loop: the strings of
    [ys] that are not empty and not seen before, each at its first place. *)
Fixpoint fresh_tokens (seen : gset string) (ys : list string) : list string :=
  match ys with
  | [] => []
  | y :: ys' =>
      if String.eqb y "" || bool_decide (y ∈ seen) then fresh_tokens seen ys'
      else y :: fresh_tokens ({[y]} ∪ seen) ys'
  end.

(** The first cell of a row; a row without cells counts as blank. *)
Definition first_cell (row : list string) : string := hd "" row.

Definition blank_first_cell (row : list string) : bool :=
  String.eqb (PyStr.strip (first_cell row)) "".

Definition header_row (row : list string) : bool :=
  bool_decide (PyStr.lower (PyStr.strip (first_cell row)) ∈ header_stoplist).

Definition survives (row : list string) : bool :=
  negb (blank_first_cell row) && negb (header_row row).

Definition occurrences (x : string) (l : list string) : nat :=
  count_occ String.string_dec l x.

(** The videos of [vs] that meet the threshold, as rows. *)
Definition accepted (keyword : string) (min_likes : Z) (vs : list video)
    : list dict :=
  omap (λ v, match video_row keyword min_likes v with
             | Return (Some row) => Some row
             | _ => None
             end) vs.

Definition raises {A} (o : outcome A) : bool :=
  match o with Raise _ => true | Return _ => false end.

(** What a fetch adds to the aggregate: its rows, nothing when it raised. *)
Definition fetched_rows (m : M (list dict)) : list dict :=
  match result m with
  | Return rows => rows
  | Raise _ => []
  end.

(** The hashtag names the run asked the platform for, in order. *)
Fixpoint fetches_of (t : list event) : list string :=
  match t with
  | [] => []
  | HashtagVideos name _ :: t' => name :: fetches_of t'
  | _ :: t' => fetches_of t'
  end.

Definition like_count_of (row : dict) : option pyval :=
  Py.lookup row "like_count".





Definition has_fieldnames (row : dict) : Prop :=
  Py.keys row = DEFAULT_FIELDNAMES.

(** Every error the fetches of [keywords] raise is an [Exception], the kind
    the loop's [except] clause catches. *)
Definition contained (api : TikTokApi) (min_likes max_per_keyword : Z)
    (keywords : list string) : bool :=
  forallb (λ keyword,
             match result (fetch_for_keyword api keyword min_likes
                                             max_per_keyword) with
             | Raise e => is_Exception e
             | Return _ => true
             end) keywords.

(** [os.getenv("TIKTOK_BROWSER", "chromium")] *)
Definition browser_of (w : world) : string :=
  default "chromium" (getenv w "TIKTOK_BROWSER").

(** [s] does not start with a character of [p]. *)
Definition headed (p : ascii → bool) (s : string) : bool :=
  match s with String c _ => negb (p c) | EmptyString => true end.

(** What one channel of the credential configuration contributes. *)
Definition channel_tokens (getenv : environ) (env_name : string)
    : list string :=
  match getenv env_name with
  | None => []
  | Some value =>
      if String.eqb value "" then [] else PyStr.re_split_seps value
  end.

(** No character of [s] is a separator of the credential channels. *)
Fixpoint no_sep (s : string) : bool :=
  match s with
  | EmptyString => true
  | String c s' => negb (PyStr.is_sep c) && no_sep s'
  end.

(** [s] without its separators. *)
Fixpoint without_seps (s : string) : string :=
  match s with
  | EmptyString => EmptyString
  | String c s' =>
      if PyStr.is_sep c then without_seps s' else String c (without_seps s')
  end.




(** The run wrote its output file. *)
Definition wrote_file (t : list event) : bool :=
  existsb (λ ev, match ev with WriteFile _ _ => true | _ => false end) t.

(** ** A worked run

    The example of the specification: keywords [#cats] and [dogs], threshold
    1000, cap 2; [#cats] yields like counts 500, 1500, 2000, 100 and the
    fetch of [dogs] raises. *)

Module Sample.

Definition vid (id : string) (likes : pyval) : video :=
  {| as_dict := [ ("id", VStr id); ("desc", VStr "clip");
                  ("stats", VDict [ ("diggCount", likes);
                                    ("commentCount", VInt 7) ]);
                  ("author", VDict [ ("uniqueId", VStr "ann") ]) ];
     url := VStr ("https://example.org/" +:+ id) |}.

Definition cats_videos : list video :=
  [ vid "1" (VInt 500); vid "2" (VInt 1500); vid "3" (VInt 2000);
    vid "4" (VInt 100) ].

Definition api : TikTokApi :=
  {| create_sessions := λ _ _ _ _, Return tt;
     hashtag_videos := λ name _,
       if String.eqb name "cats" then of_list cats_videos
       else if String.eqb name "dogs" then Fails (OtherException "TimeoutError")
       else Exhausted |}.

(** The working directory can hold [out.csv]; the empty path is the
    directory itself, and no other directory exists. *)
Definition outputs_here : output_files :=
  λ path, if String.eqb path "out.csv" then Return tt
          else if String.eqb path "" then Raise (OtherException "IsADirectoryError")
          else Raise FileNotFoundError.

Definition w : world :=
  {| getenv := λ name, if String.eqb name "ms_token" then Some "tokA, tokB;tokA" else None;
     files := λ path, if String.eqb path "in.csv"
                      then Some [["keyword"]; ["#cats"]; ["dogs"]] else None;
     platform := api;
     outputs := outputs_here |}.

Definition args : Namespace :=
  {| input := "in.csv"; output := "out.csv"; min_likes := 1000;
     max_per_keyword := 2 |}.

(** A like count that is text, and a [stats] that is no mapping. *)
Definition garbled : video :=
  {| as_dict := [ ("id", VStr "9"); ("stats", VDict [ ("diggCount", VStr "abc") ]) ];
     url := VNone |}.


Definition garbled_api : TikTokApi :=
  {| create_sessions := λ _ _ _ _, Return tt;
     hashtag_videos := λ _ _, of_list [garbled] |}.



(** The same run with the keyword of the first row written twice. *)
Definition rows_twice : list (list string) :=
  [["keyword"]; ["#cats"]; ["dogs"]; [" #cats "; "again"]].

Definition w_twice : world :=
  {| getenv := getenv w;
     files := λ path, if String.eqb path "in.csv" then Some rows_twice else None;
     platform := api;
     outputs := outputs_here |}.

(** No credentials. *)
Definition w_no_tokens : world :=
  {| getenv := λ name, if String.eqb name "MS_TOKEN" then Some " ,; " else None;
     files := files w;
     platform := api;
     outputs := outputs_here |}.

(** The [cats] stream failing after its third video. *)
Definition api_failing_late : TikTokApi :=
  {| create_sessions := λ _ _ _ _, Return tt;
     hashtag_videos := λ _ _,
       prepend (take 3 cats_videos) (Fails (OtherException "TimeoutError")) |}.

(** A platform that cannot open its sessions. *)
Definition api_no_sessions : TikTokApi :=
  {| create_sessions := λ _ _ _ _, Raise (OtherException "BrowserError");
     hashtag_videos := hashtag_videos api |}.

Definition w_no_sessions : world :=
  {| getenv := getenv w; files := files w; platform := api_no_sessions;
     outputs := outputs_here |}.

(** A platform whose [dogs] stream is interrupted by a cancellation. *)
Definition api_cancelled : TikTokApi :=
  {| create_sessions := λ _ _ _ _, Return tt;
     hashtag_videos := λ name _,
       if String.eqb name "cats" then of_list cats_videos
       else if String.eqb name "dogs" then Fails (NotAnException "CancelledError")
       else Exhausted |}.

Definition w_cancelled : world :=
  {| getenv := getenv w;
     files := λ path, if String.eqb path "in.csv"
                      then Some [["#cats"]; ["dogs"]; ["cats"]] else None;
     platform := api_cancelled;
     outputs := outputs_here |}.

(** Only failing keywords. *)
Definition w_all_fail : world :=
  {| getenv := getenv w;
     files := λ path, if String.eqb path "in.csv"
                      then Some [["dogs"]; ["#dogs"]] else None;
     platform := api;
     outputs := outputs_here |}.



(** An output path in a directory that does not exist. *)
Definition args_no_output : Namespace :=
  {| input := "in.csv"; output := "nodir/out.csv"; min_likes := 1000;
     max_per_keyword := 2 |}.

End Sample.

(** * Auxiliary lemmas *)

(** ** Stripping *)

Section Strip.
Variable p : ascii → bool.

Lemma lstrip_chars_headed s : headed p (PyStr.lstrip_chars p s) = true.
Proof.
  induction s as [|c s IH]; simpl; [done|].
  destruct (p c) eqn:Hc; [done|]. simpl. by rewrite Hc.
Qed.

Lemma lstrip_chars_fixed s : headed p s = true → PyStr.lstrip_chars p s = s.
Proof.
  destruct s as [|c s]; simpl; [done|].
  by destruct (p c).
Qed.

Lemma rstrip_chars_headed s :
  headed p s = true → headed p (PyStr.rstrip_chars p s) = true.
Proof.
  destruct s as [|c s]; simpl; [done|].
  intros Hc%negb_true_iff.
  destruct (PyStr.rstrip_chars p s); simpl; rewrite Hc; simpl; by rewrite ?Hc.
Qed.

Lemma rstrip_chars_idem s :
  PyStr.rstrip_chars p (PyStr.rstrip_chars p s) = PyStr.rstrip_chars p s.
Proof.
  induction s as [|c s IH]; simpl; [done|].
  destruct (PyStr.rstrip_chars p s) as [|d r] eqn:Hr.
  - destruct (p c) eqn:Hc; simpl; [done|]. by rewrite Hc.
  - change (PyStr.rstrip_chars p (String c (String d r))) with
      (match PyStr.rstrip_chars p (String d r) with
       | EmptyString => if p c then EmptyString else String c EmptyString
       | r' => String c r'
       end).
    by rewrite IH.
Qed.
End Strip.

Lemma strip_idem s : PyStr.strip (PyStr.strip s) = PyStr.strip s.
Proof.
  unfold PyStr.strip.
  rewrite (lstrip_chars_fixed _ (PyStr.rstrip_chars _ _)).
  - apply rstrip_chars_idem.
  - apply rstrip_chars_headed, lstrip_chars_headed.
Qed.

Lemma parse_loop_fresh raw seen tokens :
  parse_ms_tokens_loop raw seen tokens
  = tokens ++ fresh_tokens seen (map PyStr.strip raw).
Proof.
  revert seen tokens.
  induction raw as [|x raw IH]; intros seen tokens; simpl.
  - by rewrite app_nil_r.
  - destruct (String.eqb (PyStr.strip x) "" || bool_decide (PyStr.strip x ∈ seen)).
    + apply IH.
    + rewrite IH. by rewrite <- app_assoc.
Qed.

Lemma parse_ms_tokens_fresh raw :
  parse_ms_tokens raw = fresh_tokens ∅ (map PyStr.strip raw).
Proof. unfold parse_ms_tokens. by rewrite parse_loop_fresh. Qed.

Lemma fresh_skip_iff y (seen : gset string) :
  (String.eqb y "" || bool_decide (y ∈ seen)) = true ↔ y = "" ∨ y ∈ seen.
Proof.
  rewrite orb_true_iff, String.eqb_eq, bool_decide_eq_true. done.
Qed.

Lemma fresh_tokens_elem seen ys t :
  t ∈ fresh_tokens seen ys ↔ t ≠ "" ∧ t ∉ seen ∧ t ∈ ys.
Proof.
  revert seen.
  induction ys as [|y ys IH]; intros seen; simpl.
  - set_solver.
  - destruct (String.eqb y "" || bool_decide (y ∈ seen)) eqn:Hskip.
    + apply fresh_skip_iff in Hskip. rewrite IH. set_solver.
    + assert (¬ (y = "" ∨ y ∈ seen)) as Hkeep.
      { rewrite <- fresh_skip_iff. by rewrite Hskip. }
      rewrite elem_of_cons, IH.
      destruct (decide (t = y)) as [->|Hne]; set_solver.
Qed.

Lemma fresh_tokens_NoDup seen ys : NoDup (fresh_tokens seen ys).
Proof.
  revert seen.
  induction ys as [|y ys IH]; intros seen; simpl.
  - constructor.
  - destruct (String.eqb y "" || bool_decide (y ∈ seen)); [apply IH|].
    constructor; [|apply IH].
    rewrite fresh_tokens_elem. set_solver.
Qed.

Lemma fresh_tokens_order seen ys l1 a l2 :
  fresh_tokens seen ys = l1 ++ a :: l2 →
  ∃ p q, ys = p ++ a :: q ∧ a ∉ p ∧ ∀ b, b ∈ l2 → b ∉ p.
Proof.
  revert seen l1.
  induction ys as [|y ys IH]; intros seen l1; simpl.
  - by destruct l1.
  - destruct (String.eqb y "" || bool_decide (y ∈ seen)) eqn:Hskip.
    + intros Heq. apply fresh_skip_iff in Hskip.
      destruct (IH _ _ Heq) as (p & q & -> & Ha & Hb).
      assert (∀ t, t ∈ l1 ++ a :: l2 → t ≠ y) as Hin.
      { intros t Ht. rewrite <- Heq in Ht.
        apply fresh_tokens_elem in Ht. set_solver. }
      exists (y :: p), q. split; [done|]. split.
      * rewrite not_elem_of_cons. split; [|done]. apply Hin. set_solver.
      * intros b Hbl. rewrite not_elem_of_cons. split; [|by apply Hb].
        apply Hin. set_solver.
    + destruct l1 as [|x l1]; simpl; intros Heq.
      * injection Heq as <- _. exists [], ys.
        split; [done|]. split; [set_solver|]. intros; set_solver.
      * injection Heq as <- Heq.
        destruct (IH _ _ Heq) as (p & q & -> & Ha & Hb).
        assert (∀ t, t ∈ l1 ++ a :: l2 → t ≠ y) as Hin.
        { intros t Ht. rewrite <- Heq in Ht.
          apply fresh_tokens_elem in Ht. set_solver. }
        exists (y :: p), q. split; [done|]. split.
        -- rewrite not_elem_of_cons. split; [|done]. apply Hin. set_solver.
        -- intros b Hbl. rewrite not_elem_of_cons. split; [|by apply Hb].
           apply Hin. set_solver.
Qed.

Lemma fresh_tokens_fixed seen ys :
  NoDup ys → (∀ y, y ∈ ys → y ≠ "" ∧ y ∉ seen) → fresh_tokens seen ys = ys.
Proof.
  revert seen.
  induction ys as [|y ys IH]; intros seen Hnd Hys; simpl; [done|].
  apply NoDup_cons in Hnd as [Hy Hnd].
  destruct (String.eqb y "" || bool_decide (y ∈ seen)) eqn:Hskip.
  - apply fresh_skip_iff in Hskip. destruct (Hys y); set_solver.
  - f_equal. apply IH; [done|].
    intros z Hz. destruct (Hys z); set_solver.
Qed.

Lemma parse_ms_tokens_elem raw t :
  t ∈ parse_ms_tokens raw ↔ t ≠ "" ∧ t ∈ map PyStr.strip raw.
Proof. rewrite parse_ms_tokens_fresh, fresh_tokens_elem. set_solver. Qed.

Lemma parse_ms_tokens_normal raw t :
  t ∈ parse_ms_tokens raw → PyStr.strip t = t ∧ t ≠ "".
Proof.
  rewrite parse_ms_tokens_elem. intros [Hne Hin]. split; [|done].
  apply list_elem_of_In, in_map_iff in Hin as (x & <- & _). apply strip_idem.
Qed.

Lemma parse_ms_tokens_fixed l :
  NoDup l → (∀ t, t ∈ l → PyStr.strip t = t ∧ t ≠ "") → parse_ms_tokens l = l.
Proof.
  intros Hnd Hl. rewrite parse_ms_tokens_fresh.
  assert (map PyStr.strip l = l) as ->.
  { clear Hnd. induction l as [|x l IH]; simpl; [done|].
    rewrite (proj1 (Hl x ltac:(set_solver))). f_equal. apply IH.
    intros; apply Hl; set_solver. }
  apply fresh_tokens_fixed; [done|].
  intros y Hy. split; [by apply Hl | set_solver].
Qed.

(** ** Keywords and the fetch loop *)

Lemma read_keywords_loop_survivors rows keywords :
  read_keywords_loop rows keywords
  = keywords ++ map (λ row, PyStr.strip (first_cell row)) (List.filter survives rows).
Proof.
  revert keywords.
  induction rows as [|row rows IH]; intros keywords; simpl.
  - by rewrite app_nil_r.
  - destruct row as [|cell row].
    + rewrite IH. reflexivity.
    + unfold survives at 1, blank_first_cell, header_row, first_cell. simpl.
      destruct (String.eqb (PyStr.strip cell) ""); simpl; [apply IH|].
      destruct (bool_decide (PyStr.lower (PyStr.strip cell) ∈ header_stoplist));
        simpl; [apply IH|].
      rewrite IH. by rewrite <- app_assoc.
Qed.

Lemma occurrences_map_filter {A} (f : A → string) (g : A → bool) x l :
  occurrences x (map f (List.filter g l))
  = length (List.filter (λ a, g a && String.eqb (f a) x) l).
Proof.
  unfold occurrences.
  induction l as [|a l IH]; simpl; [done|].
  destruct (g a); simpl; [|done].
  destruct (String.string_dec (f a) x) as [->|Hne].
  - rewrite String.eqb_refl. simpl. by rewrite IH.
  - apply String.eqb_neq in Hne. by rewrite Hne.
Qed.

Lemma video_row_shape keyword min_likes v row :
  video_row keyword min_likes v = Return (Some row) →
  ∃ n, video_like_count v = Return n ∧ min_likes ≤ n
       ∧ Py.keys row = DEFAULT_FIELDNAMES
       ∧ like_count_of row = Some (VInt n)
       ∧ Py.lookup row "keyword" = Some (VStr keyword).
Proof.
  unfold video_row.
  destruct (video_like_count v) as [n|e]; simpl; [|done].
  destruct (n <? min_likes) eqn:Hlt; [done|].
  apply Z.ltb_ge in Hlt.
  destruct (Py.get (video_stats v) "commentCount" VNone); simpl; [|done].
  destruct (Py.get (video_stats v) "shareCount" VNone); simpl; [|done].
  destruct (Py.get (video_stats v) "playCount" VNone); simpl; [|done].
  destruct (Py.get (video_author v) "uniqueId" VNone); simpl; [|done].
  destruct (Py.get (video_author v) "nickname" VNone); simpl; [|done].
  intros [= <-]. exists n. done.
Qed.

Lemma fetch_loop_Forall (P : dict → Prop) keyword min_likes max_results :
  (∀ v row, video_row keyword min_likes v = Return (Some row) → P row) →
  ∀ videos results rows,
    Forall P results →
    result (fetch_loop videos keyword min_likes max_results results) = Return rows →
    Forall P rows.
Proof.
  intros HP.
  induction videos as [|v rest IH|e]; intros results rows Hres; simpl.
  - by intros [= <-].
  - unfold result, bind, lift, emit. simpl.
    destruct (video_row keyword min_likes v) as [[row|]|e] eqn:Hrow; simpl.
    + destruct (Z.of_nat (length (results ++ [row])) >=? max_results).
      * simpl. intros [= <-]. apply Forall_app. split; [done|].
        constructor; [by eapply HP|constructor].
      * specialize (IH (results ++ [row]) rows).
        destruct (fetch_loop rest keyword min_likes max_results (results ++ [row])).
        simpl in *. apply IH. apply Forall_app. split; [done|].
        constructor; [by eapply HP|constructor].
    + specialize (IH results rows Hres).
      destruct (fetch_loop rest keyword min_likes max_results results).
      simpl in *. done.
    + done.
  - done.
Qed.

Lemma fetch_for_keyword_unfold api keyword min_likes max_results :
  fetch_for_keyword api keyword min_likes max_results
  = (HashtagVideos (PyStr.lstrip_hash keyword) FETCH_COUNT_PER_KEYWORD
       :: trace (fetch_loop (hashtag_videos api (PyStr.lstrip_hash keyword)
                               FETCH_COUNT_PER_KEYWORD)
                            keyword min_likes max_results []),
     result (fetch_loop (hashtag_videos api (PyStr.lstrip_hash keyword)
                               FETCH_COUNT_PER_KEYWORD)
                            keyword min_likes max_results [])).
Proof.
  unfold fetch_for_keyword, bind, emit, trace, result.
  by destruct (fetch_loop _ _ _ _ _).
Qed.

Lemma fetch_loop_step v rest keyword min_likes max_results results :
  fetch_loop (Yield v rest) keyword min_likes max_results results
  = match video_row keyword min_likes v with
    | Raise e => ([Yielded v], Raise e)
    | Return None =>
        let m := fetch_loop rest keyword min_likes max_results results in
        (Yielded v :: trace m, result m)
    | Return (Some row) =>
        if Z.of_nat (length (results ++ [row])) >=? max_results
        then ([Yielded v], Return (results ++ [row]))
        else
          let m := fetch_loop rest keyword min_likes max_results (results ++ [row]) in
          (Yielded v :: trace m, result m)
    end.
Proof.
  simpl. unfold bind, emit, lift, trace, result, ret. simpl.
  destruct (video_row keyword min_likes v) as [[row|]|e]; simpl; [| |done].
  - destruct (_ >=? _); [done|]. by destruct (fetch_loop _ _ _ _ _).
  - by destruct (fetch_loop _ _ _ _ _).
Qed.

Lemma fetch_loop_no_fetches videos keyword min_likes max_results results :
  fetches_of (trace (fetch_loop videos keyword min_likes max_results results)) = [].
Proof.
  revert results.
  induction videos as [|v rest IH|e]; intros results; [done| |done].
  rewrite fetch_loop_step.
  destruct (video_row keyword min_likes v) as [[row|]|e]; simpl; [| |done].
  - destruct (_ >=? _); simpl; [done|]. apply IH.
  - apply IH.
Qed.






(** ** The cap, the crawl loop, the sink and the run *)

Lemma accepted_cons keyword min_likes v vs :
  accepted keyword min_likes (v :: vs)
  = match video_row keyword min_likes v with
    | Return (Some row) => row :: accepted keyword min_likes vs
    | _ => accepted keyword min_likes vs
    end.
Proof.
  unfold accepted. simpl.
  by destruct (video_row keyword min_likes v) as [[row|]|e].
Qed.

(** With a cap of at least one, the loop returns the first [max_results]
    accepted rows (counting the ones it already holds). *)
Lemma fetch_loop_cap keyword min_likes max_results vs :
  1 ≤ max_results →
  Forall (λ v, raises (video_row keyword min_likes v) = false) vs →
  ∀ results,
    Z.of_nat (length results) < max_results →
    result (fetch_loop (of_list vs) keyword min_likes max_results results)
    = Return (results ++ take (Z.to_nat max_results - length results)
                              (accepted keyword min_likes vs)).
Proof.
  intros Hcap.
  induction 1 as [|v vs Hv _ IH]; intros results Hlen.
  - simpl. by rewrite take_nil, app_nil_r.
  - change (of_list (v :: vs)) with (Yield v (of_list vs)).
    rewrite fetch_loop_step, accepted_cons.
    destruct (video_row keyword min_likes v) as [[row|]|e]; simpl; [| |done].
    + destruct (Z.of_nat (length (results ++ [row])) >=? max_results) eqn:Hge.
      * simpl. f_equal. f_equal.
        rewrite length_app in Hge. simpl in Hge.
        apply Z.geb_le in Hge.
        replace (Z.to_nat max_results - length results)%nat with 1%nat by lia.
        simpl. by rewrite take_0.
      * simpl. rewrite Z.geb_leb in Hge. apply Z.leb_gt in Hge.
        rewrite IH by done.
        rewrite length_app in *. simpl in *.
        rewrite <- app_assoc. simpl. f_equal.
        replace (Z.to_nat max_results - length results)%nat
          with (S (Z.to_nat max_results - (length results + 1)))%nat by lia.
        done.
    + by apply IH.
Qed.

(** Once the cap is reached the rest of the upstream is not touched,
    whatever it is. *)
Lemma fetch_loop_early_stop keyword min_likes max_results pre v rest :
  1 ≤ max_results →
  Forall (λ v, raises (video_row keyword min_likes v) = false) (pre ++ [v]) →
  ∀ results,
    Z.of_nat (length (results ++ accepted keyword min_likes (pre ++ [v])))
      = max_results →
    accepted keyword min_likes [v] ≠ [] →
    fetch_loop (prepend (pre ++ [v]) rest) keyword min_likes max_results results
    = (map Yielded (pre ++ [v]),
       Return (results ++ accepted keyword min_likes (pre ++ [v]))).
Proof.
  intros Hcap Hok results Hlen Hv. revert results Hok Hlen.
  induction pre as [|u pre IH]; intros results Hok Hlen.
  - simpl app in *. change (prepend [v] rest) with (Yield v rest).
    rewrite fetch_loop_step. rewrite accepted_cons in *.
    destruct (video_row keyword min_likes v) as [[row|]|e]; [| done |].
    + change (accepted keyword min_likes []) with (@nil dict) in *.
      rewrite Hlen, Z.geb_leb, Z.leb_refl. done.
    + by apply Forall_cons_1 in Hok as [? _].
  - change (prepend ((u :: pre) ++ [v]) rest)
      with (Yield u (prepend (pre ++ [v]) rest)).
    rewrite fetch_loop_step.
    change ((u :: pre) ++ [v]) with (u :: (pre ++ [v])) in *.
    assert (accepted keyword min_likes (pre ++ [v]) ≠ []) as Hne.
    { unfold accepted in *. rewrite omap_app.
      intros [_ ?]%app_eq_nil. done. }
    rewrite accepted_cons in Hlen |- *.
    apply Forall_cons_1 in Hok as [Hu Hok].
    destruct (video_row keyword min_likes u) as [[row|]|e]; [| |done].
    + destruct (Z.of_nat (length (results ++ [row])) >=? max_results) eqn:Hge.
      * exfalso. rewrite Z.geb_leb in Hge. apply Z.leb_le in Hge.
        rewrite !length_app in *. simpl in *.
        destruct (accepted keyword min_likes (pre ++ [v])); [done|].
        simpl in *. lia.
      * rewrite IH; [|done|].
        -- simpl. by rewrite <- app_assoc.
        -- rewrite <- app_assoc. done.
    + rewrite IH; done.
Qed.

Lemma crawl_loop_step api keyword rest min_likes max_per_keyword aggregated :
  crawl_loop api (keyword :: rest) min_likes max_per_keyword aggregated
  = let f := fetch_for_keyword api keyword min_likes max_per_keyword in
    match result f with
    | Return rows =>
        let m := crawl_loop api rest min_likes max_per_keyword (aggregated ++ rows) in
        (trace f ++ trace m, result m)
    | Raise e =>
        if is_Exception e then
          let m := crawl_loop api rest min_likes max_per_keyword aggregated in
          (trace f ++ trace m, result m)
        else (trace f, Raise e)
    end.
Proof.
  simpl. unfold bind, catch_Exception, trace, result.
  destruct (fetch_for_keyword api keyword min_likes max_per_keyword) as [t [rows|e]];
    simpl.
  - by destruct (crawl_loop _ _ _ _ _).
  - destruct (is_Exception e); [|done]. by destruct (crawl_loop _ _ _ _ _).
Qed.

Section Crawl.
Variables (api : TikTokApi) (min_likes max_per_keyword : Z).

Local Abbreviation fetch keyword :=
  (fetch_for_keyword api keyword min_likes max_per_keyword).

Lemma crawl_loop_run keywords aggregated :
  contained api min_likes max_per_keyword keywords = true →
  crawl_loop api keywords min_likes max_per_keyword aggregated
  = (flat_map (λ keyword, trace (fetch keyword)) keywords,
     Return (aggregated ++ flat_map (λ keyword, fetched_rows (fetch keyword)) keywords)).
Proof.
  revert aggregated.
  induction keywords as [|keyword rest IH]; intros aggregated Hc.
  - simpl. by rewrite app_nil_r.
  - rewrite crawl_loop_step. cbv zeta.
    simpl in Hc. apply andb_true_iff in Hc as [Hk Hrest].
    simpl flat_map. unfold fetched_rows at 1.
    destruct (result (fetch keyword)) as [rows|e] eqn:Hf.
    + rewrite IH by done. simpl. by rewrite <- app_assoc.
    + rewrite Hk. rewrite IH by done. done.
Qed.

Lemma contained_app l1 l2 :
  contained api min_likes max_per_keyword (l1 ++ l2)
  = contained api min_likes max_per_keyword l1
    && contained api min_likes max_per_keyword l2.
Proof. apply forallb_app. Qed.

Lemma fetches_of_app t1 t2 : fetches_of (t1 ++ t2) = fetches_of t1 ++ fetches_of t2.
Proof.
  induction t1 as [|ev t1 IH]; simpl; [done|].
  destruct ev; simpl; by rewrite ?IH.
Qed.

Lemma fetches_of_fetch keyword :
  fetches_of (trace (fetch keyword)) = [PyStr.lstrip_hash keyword].
Proof.
  rewrite fetch_for_keyword_unfold. simpl.
  by rewrite fetch_loop_no_fetches.
Qed.

Lemma fetches_of_crawl keywords :
  fetches_of (flat_map (λ keyword, trace (fetch keyword)) keywords)
  = map PyStr.lstrip_hash keywords.
Proof.
  induction keywords as [|keyword rest IH]; simpl; [done|].
  by rewrite fetches_of_app, fetches_of_fetch, IH.
Qed.

Lemma fetched_rows_fieldnames keyword :
  Forall has_fieldnames (fetched_rows (fetch keyword)).
Proof.
  unfold fetched_rows. rewrite fetch_for_keyword_unfold. simpl.
  destruct (result (fetch_loop _ _ _ _ _)) as [rows|e] eqn:Hr; [|constructor].
  eapply (fetch_loop_Forall has_fieldnames); [|constructor|exact Hr].
  intros v row Hrow. by apply video_row_shape in Hrow as (n & _ & _ & ? & _).
Qed.
End Crawl.

(** The sink on rows that carry the ten columns. *)

Lemma dict_to_list_fieldnames row :
  has_fieldnames row → dict_to_list DEFAULT_FIELDNAMES row = Return (map snd row).
Proof.
  unfold has_fieldnames, Py.keys, DEFAULT_FIELDNAMES. intros Hk.
  repeat (destruct row as [|[? ?] row]; [discriminate Hk|]; simpl in Hk;
          injection Hk as -> Hk).
  destruct row; [|discriminate Hk].
  reflexivity.
Qed.

Lemma write_loop_fieldnames rows written :
  Forall has_fieldnames rows →
  write_loop DEFAULT_FIELDNAMES rows written
  = (written ++ map (map snd) rows, Return tt).
Proof.
  intros Hrows. revert written.
  induction Hrows as [|row rows Hrow _ IH]; intros written; simpl.
  - by rewrite app_nil_r.
  - rewrite dict_to_list_fieldnames by done. rewrite IH.
    by rewrite <- app_assoc.
Qed.

Lemma write_rows_unopened (fs : output_files) output_path rows e :
  fs output_path = Raise e → write_rows fs output_path rows = ([], Raise e).
Proof. intros Ho. unfold write_rows. by rewrite Ho. Qed.

Lemma write_rows_opened (fs : output_files) output_path rows :
  fs output_path = Return tt →
  write_rows fs output_path rows
  = (let fieldnames := match rows with
                       | first :: _ => Py.keys first
                       | [] => DEFAULT_FIELDNAMES
                       end in
     let '(records, r) := write_loop fieldnames rows [map VStr fieldnames] in
     ([WriteFile output_path records],
      match r with
      | Return _ => Return (Z.of_nat (length rows))
      | Raise e => Raise e
      end)).
Proof.
  intros Ho. unfold write_rows. rewrite Ho. cbv zeta.
  by destruct (write_loop _ _ _) as [records [[]|e]].
Qed.

Lemma write_rows_fieldnames (fs : output_files) output_path rows :
  fs output_path = Return tt →
  Forall has_fieldnames rows →
  write_rows fs output_path rows
  = ([WriteFile output_path (map VStr DEFAULT_FIELDNAMES :: map (map snd) rows)],
     Return (Z.of_nat (length rows))).
Proof.
  intros Ho Hrows. rewrite write_rows_opened by done.
  assert (match rows with first :: _ => Py.keys first | [] => DEFAULT_FIELDNAMES end
          = DEFAULT_FIELDNAMES) as ->.
  { destruct Hrows; done. }
  cbv zeta. rewrite write_loop_fieldnames by done. reflexivity.
Qed.

Lemma write_rows_no_fetches (fs : output_files) output_path rows :
  fetches_of (trace (write_rows fs output_path rows)) = [].
Proof.
  destruct (fs output_path) as [[]|e] eqn:Ho.
  - rewrite write_rows_opened by done. cbv zeta.
    by destruct (write_loop _ _ _) as [records r].
  - by rewrite (write_rows_unopened fs output_path rows e Ho).
Qed.

(** The run, step by step. *)

Lemma main_async_no_tokens w args e :
  ensure_ms_tokens (getenv w) = Raise e → main_async w args = ([], Raise e).
Proof. intros H. unfold main_async. by rewrite H. Qed.

Lemma main_async_no_keywords w args ms_tokens e :
  ensure_ms_tokens (getenv w) = Return ms_tokens →
  read_keywords_safe (files w) (input args) = Raise e →
  main_async w args = ([], Raise e).
Proof. intros H1 H2. unfold main_async. by rewrite H1, H2. Qed.

(** A run up to its write: validations passed, sessions opened, every
    error of a fetch caught. *)
Lemma main_async_crawled w args ms_tokens keywords :
  ensure_ms_tokens (getenv w) = Return ms_tokens →
  read_keywords_safe (files w) (input args) = Return keywords →
  create_sessions (platform w) ms_tokens (length ms_tokens) 3 (browser_of w)
    = Return tt →
  contained (platform w) (min_likes args) (max_per_keyword args) keywords = true →
  let fetch := λ keyword,
    fetch_for_keyword (platform w) keyword (min_likes args) (max_per_keyword args) in
  let aggregated := flat_map (λ keyword, fetched_rows (fetch keyword)) keywords in
  let sink := write_rows (outputs w) (output args) aggregated in
  main_async w args
  = (ApiEnter :: CreateSessions ms_tokens (length ms_tokens) 3 (browser_of w)
       :: flat_map (λ keyword, trace (fetch keyword)) keywords
       ++ ApiExit :: trace sink,
     match result sink with
     | Return _ => Return tt
     | Raise e => Raise e
     end).
Proof.
  intros Ht Hk Hs Hc fetch aggregated sink.
  subst sink aggregated fetch. cbv beta.
  unfold main_async. rewrite Ht, Hk. cbn [lift bind app].
  unfold browser_of in Hs. rewrite Hs.
  rewrite (crawl_loop_run _ _ _ _ [] Hc). cbn [app emit bind lift with_api].
  destruct (write_rows _ _ _) as [t [total|e]];
    cbn [bind ret trace result fst snd app]; unfold browser_of;
    rewrite <- app_assoc, ?app_nil_r; reflexivity.
Qed.

Lemma main_async_run w args ms_tokens keywords :
  ensure_ms_tokens (getenv w) = Return ms_tokens →
  read_keywords_safe (files w) (input args) = Return keywords →
  create_sessions (platform w) ms_tokens (length ms_tokens) 3 (browser_of w)
    = Return tt →
  contained (platform w) (min_likes args) (max_per_keyword args) keywords = true →
  outputs w (output args) = Return tt →
  let fetch := λ keyword,
    fetch_for_keyword (platform w) keyword (min_likes args) (max_per_keyword args) in
  let aggregated := flat_map (λ keyword, fetched_rows (fetch keyword)) keywords in
  main_async w args
  = (ApiEnter :: CreateSessions ms_tokens (length ms_tokens) 3 (browser_of w)
       :: flat_map (λ keyword, trace (fetch keyword)) keywords
       ++ [ApiExit;
           WriteFile (output args)
             (map VStr DEFAULT_FIELDNAMES :: map (map snd) aggregated)],
     Return tt).
Proof.
  intros Ht Hk Hs Hc Ho fetch aggregated.
  rewrite (main_async_crawled w args ms_tokens keywords Ht Hk Hs Hc).
  cbv zeta. rewrite write_rows_fieldnames; [done|done|].
  apply Forall_flat_map, Forall_forall. intros kw _.
  apply fetched_rows_fieldnames.
Qed.

(** * The components *)

(** ** TokenSet *)

Lemma collect_raw_tokens_channels getenv env_names collected :
  collect_raw_tokens getenv env_names collected
  = collected ++ flat_map (channel_tokens getenv) env_names.
Proof.
  revert collected.
  induction env_names as [|env_name rest IH]; intros collected; simpl.
  - by rewrite app_nil_r.
  - unfold channel_tokens at 1.
    destruct (getenv env_name) as [value|]; [|apply IH].
    destruct (String.eqb value ""); [apply IH|].
    rewrite IH. by rewrite <- app_assoc.
Qed.

Lemma parse_ms_tokens_nil_iff raw :
  parse_ms_tokens raw = [] ↔ Forall (λ x, PyStr.strip x = "") raw.
Proof.
  split.
  - intros Hnil. apply Forall_forall. intros x Hx.
    destruct (decide (PyStr.strip x = "")) as [|Hne]; [done|].
    assert (PyStr.strip x ∈ parse_ms_tokens raw) as Hin.
    { apply parse_ms_tokens_elem. split; [done|].
      apply list_elem_of_In, in_map, list_elem_of_In, Hx. }
    rewrite Hnil in Hin. by apply elem_of_nil in Hin.
  - intros Hall.
    destruct (parse_ms_tokens raw) as [|t l] eqn:Hp; [done|].
    assert (t ∈ parse_ms_tokens raw) as Hin by (rewrite Hp; set_solver).
    apply parse_ms_tokens_elem in Hin as [Hne Hin].
    apply list_elem_of_In, in_map_iff in Hin as (x & <- & Hx).
    rewrite Forall_forall in Hall. destruct Hne. apply Hall.
    by apply list_elem_of_In.
Qed.

(** C5.  When some raw token of the credential channels is not empty after
    trimming, [get_ms_tokens] returns a list that is not empty, has no
    duplicates, holds only trimmed non-empty tokens, holds exactly the
    non-empty trimmed raw tokens, and keeps them in the order of their first
    appearance; when every raw token trims to the empty string it raises
    [RuntimeError] (the configuration error of the run).  The raw tokens are
    the pieces of every channel that is set and not empty, channel after
    channel. *)
Theorem get_ms_tokens_spec (getenv : environ) :
  let collected := collect_raw_tokens getenv ms_token_env_names [] in
  let normalized := map PyStr.strip collected in
  collected = flat_map (channel_tokens getenv) ms_token_env_names
  ∧ (Exists (λ raw, PyStr.strip raw ≠ "") collected →
     ∃ tokens, get_ms_tokens getenv = Return tokens
       ∧ tokens ≠ []
       ∧ NoDup tokens
       ∧ Forall (λ t, PyStr.strip t = t ∧ t ≠ "") tokens
       ∧ (∀ t, t ∈ tokens ↔ t ≠ "" ∧ t ∈ normalized)
       ∧ (∀ l1 a l2, tokens = l1 ++ a :: l2 →
            ∃ p q, normalized = p ++ a :: q ∧ a ∉ p ∧ ∀ b, b ∈ l2 → b ∉ p))
  ∧ (Forall (λ raw, PyStr.strip raw = "") collected →
     get_ms_tokens getenv = Raise RuntimeError).
Proof.
  intros collected normalized. split; [|split].
  - unfold collected. by rewrite collect_raw_tokens_channels.
  - intros Hex. exists (parse_ms_tokens collected).
    assert (parse_ms_tokens collected ≠ []) as Hne.
    { rewrite parse_ms_tokens_nil_iff. intros Hall.
      apply Exists_exists in Hex as (x & Hx & Hnb).
      rewrite Forall_forall in Hall. by apply Hnb, Hall. }
    split; [|split; [done|split; [|split; [|split]]]].
    + unfold get_ms_tokens. fold collected.
      by destruct (parse_ms_tokens collected).
    + rewrite parse_ms_tokens_fresh. apply fresh_tokens_NoDup.
    + apply Forall_forall. intros t Ht. by apply parse_ms_tokens_normal in Ht.
    + intros t. apply parse_ms_tokens_elem.
    + intros l1 a l2 Heq. rewrite parse_ms_tokens_fresh in Heq.
      by apply fresh_tokens_order in Heq.
  - intros Hall. apply parse_ms_tokens_nil_iff in Hall.
    unfold get_ms_tokens. fold collected. by rewrite Hall.
Qed.

Lemma get_ms_tokens_spec_witness :
  (∃ tokens, get_ms_tokens (getenv Sample.w) = Return tokens
     ∧ tokens ≠ []
     ∧ NoDup tokens
     ∧ Forall (λ t, PyStr.strip t = t ∧ t ≠ "") tokens
     ∧ (∀ t, t ∈ tokens ↔ t ≠ ""
           ∧ t ∈ map PyStr.strip
                   (collect_raw_tokens (getenv Sample.w) ms_token_env_names []))
     ∧ (∀ l1 a l2, tokens = l1 ++ a :: l2 →
          ∃ p q, map PyStr.strip
                   (collect_raw_tokens (getenv Sample.w) ms_token_env_names [])
                 = p ++ a :: q ∧ a ∉ p ∧ ∀ b, b ∈ l2 → b ∉ p))
  ∧ get_ms_tokens (getenv Sample.w_no_tokens) = Raise RuntimeError.
Proof.
  split.
  - apply (proj1 (proj2 (get_ms_tokens_spec (getenv Sample.w)))).
    apply Exists_cons_hd. vm_compute. discriminate.
  - apply (proj2 (proj2 (get_ms_tokens_spec (getenv Sample.w_no_tokens)))).
    vm_compute. repeat constructor.
Defined.

(** C10.  [parse_ms_tokens] is idempotent, and every token it returns is not
    empty and equal to its own trim. *)
Theorem parse_ms_tokens_idempotent (xs : list string) :
  parse_ms_tokens (parse_ms_tokens xs) = parse_ms_tokens xs
  ∧ Forall (λ t, t ≠ "" ∧ PyStr.strip t = t) (parse_ms_tokens xs).
Proof.
  split.
  - apply parse_ms_tokens_fixed.
    + rewrite parse_ms_tokens_fresh. apply fresh_tokens_NoDup.
    + intros t. apply parse_ms_tokens_normal.
  - apply Forall_forall. intros t Ht.
    apply parse_ms_tokens_normal in Ht as [? ?]. done.
Qed.

(** ** KeywordSource *)

Lemma survives_false_iff row :
  survives row = false ↔ blank_first_cell row = true ∨ header_row row = true.
Proof.
  unfold survives. destruct (blank_first_cell row), (header_row row); naive_solver.
Qed.

(** C6.  A path that does not exist raises [FileNotFoundError].  For the rows
    of a path that exists, a row is dropped exactly when its first cell is
    blank after trimming (a row without cells counts as blank) or its trimmed
    first cell, in lower case, is one of keyword, palabra, hashtag; the
    trimmed first cells of the other rows are returned in row order, and
    when none is left the call raises [RuntimeError] (the configuration
    error of the run). *)
Theorem read_keywords_safe_spec (fs : csv_files) (path : string) :
  (fs path = None → read_keywords_safe fs path = Raise FileNotFoundError)
  ∧ (∀ rows, fs path = Some rows →
       let kept := List.filter survives rows in
       let keywords := map (λ row, PyStr.strip (first_cell row)) kept in
       read_keywords fs path = Return keywords
       ∧ (kept = [] → read_keywords_safe fs path = Raise RuntimeError)
       ∧ (kept ≠ [] → read_keywords_safe fs path = Return keywords)
       ∧ (∀ row, survives row = false
                 ↔ blank_first_cell row = true ∨ header_row row = true)).
Proof.
  split.
  - intros Hnone. unfold read_keywords_safe. by rewrite Hnone.
  - intros rows Hrows kept keywords.
    assert (read_keywords fs path = Return keywords) as Hread.
    { unfold read_keywords. rewrite Hrows.
      by rewrite read_keywords_loop_survivors. }
    split; [done|]. unfold read_keywords_safe. rewrite Hrows, Hread. simpl.
    split; [|split].
    + intros Hk. unfold keywords. by rewrite Hk.
    + intros Hk. unfold keywords. by destruct kept.
    + apply survives_false_iff.
Qed.

Lemma read_keywords_safe_spec_witness :
  read_keywords_safe (files Sample.w_twice) "missing.csv" = Raise FileNotFoundError
  ∧ read_keywords_safe (files Sample.w_twice) "in.csv"
    = Return ["#cats"; "dogs"; "#cats"]
  ∧ read_keywords_safe (λ _, Some [["Hashtag"]; []; ["  "]]) "in.csv"
    = Raise RuntimeError.
Proof.
  split; [|split].
  - apply (proj1 (read_keywords_safe_spec (files Sample.w_twice) "missing.csv")).
    reflexivity.
  - apply (proj2 (read_keywords_safe_spec (files Sample.w_twice) "in.csv")
             Sample.rows_twice); [reflexivity|].
    vm_compute. discriminate.
  - apply (proj2 (read_keywords_safe_spec (λ _, Some [["Hashtag"]; []; ["  "]]) "in.csv")
             [["Hashtag"]; []; ["  "]]); [reflexivity|].
    vm_compute. reflexivity.
Defined.

(** ** KeywordFetcher *)

(** With a cap of zero or less, the loop returns as soon as one row is
    accepted. *)
Lemma fetch_loop_cap_nonpositive keyword min_likes max_results vs :
  max_results ≤ 0 →
  Forall (λ v, raises (video_row keyword min_likes v) = false) vs →
  result (fetch_loop (of_list vs) keyword min_likes max_results [])
  = Return (take 1 (accepted keyword min_likes vs)).
Proof.
  intros Hcap.
  induction 1 as [|v vs Hv _ IH]; [done|].
  change (of_list (v :: vs)) with (Yield v (of_list vs)).
  rewrite fetch_loop_step, accepted_cons.
  destruct (video_row keyword min_likes v) as [[row|]|e]; [| |done].
  - assert (Z.of_nat (length ([] ++ [row])) >=? max_results = true) as ->.
    { rewrite Z.geb_leb. apply Z.leb_le. simpl. lia. }
    simpl. by rewrite take_0.
  - apply IH.
Qed.

(** X2.  With a cap of at least one, on an upstream that ends and whose
    videos are well formed, [fetch_for_keyword] returns the first
    [max_results] accepted rows: min(K, C) of them. *)
Lemma fetch_for_keyword_cap api keyword min_likes max_results vs :
  hashtag_videos api (PyStr.lstrip_hash keyword) FETCH_COUNT_PER_KEYWORD
    = of_list vs →
  1 ≤ max_results →
  Forall (λ v, raises (video_row keyword min_likes v) = false) vs →
  let rows := fetched_rows (fetch_for_keyword api keyword min_likes max_results) in
  result (fetch_for_keyword api keyword min_likes max_results)
    = Return (take (Z.to_nat max_results) (accepted keyword min_likes vs))
  ∧ Z.of_nat (length rows)
    = Z.min (Z.of_nat (length (accepted keyword min_likes vs))) max_results
  ∧ 0 ≤ Z.of_nat (length rows) ≤ max_results.
Proof.
  intros Hvs Hcap Hok rows.
  assert (result (fetch_for_keyword api keyword min_likes max_results)
          = Return (take (Z.to_nat max_results) (accepted keyword min_likes vs)))
    as Hres.
  { rewrite fetch_for_keyword_unfold. simpl. rewrite Hvs.
    rewrite fetch_loop_cap by (done || simpl; lia).
    simpl. by rewrite Nat.sub_0_r. }
  split; [done|].
  unfold rows, fetched_rows. rewrite Hres, length_take. lia.
Qed.

(** C1.  A cap of zero.  The stream of the sample platform for [cats] holds
    two videos that meet the threshold 1000 (K = 2).  With C = 0 the loop
    appends the first of them before it compares the length with the cap,
    and [fetch_for_keyword] returns one record: not min(K, C) = 0 records,
    and more than the cap. *)
Theorem fetch_for_keyword_cap_zero :
  let m := fetch_for_keyword Sample.api "#cats" 1000 0 in
  length (accepted "#cats" 1000 Sample.cats_videos) = 2%nat
  ∧ result m = Return (take 1 (accepted "#cats" 1000 Sample.cats_videos))
  ∧ length (fetched_rows m) = 1%nat
  ∧ Z.of_nat (length (fetched_rows m))
    ≠ Z.min (Z.of_nat (length (accepted "#cats" 1000 Sample.cats_videos))) 0
  ∧ ¬ (Z.of_nat (length (fetched_rows m)) ≤ 0).
Proof.
  cbv zeta. repeat split; try (vm_compute; reflexivity).
  - vm_compute. discriminate.
  - vm_compute. intros H. by apply H.
Qed.





(** C4.  Every record [fetch_for_keyword] returns carries a like count that is
    an integer of at least the threshold. *)
Theorem fetched_rows_meet_threshold
    api keyword min_likes max_results (rows : list dict) :
  result (fetch_for_keyword api keyword min_likes max_results) = Return rows →
  Forall (λ row, ∃ n, like_count_of row = Some (VInt n) ∧ min_likes ≤ n) rows.
Proof.
  rewrite fetch_for_keyword_unfold. simpl. intros Hres.
  eapply (fetch_loop_Forall
            (λ row, ∃ n, like_count_of row = Some (VInt n) ∧ min_likes ≤ n));
    [|constructor|exact Hres].
  intros v row Hrow.
  apply video_row_shape in Hrow as (n & _ & Hn & _ & Hl & _). by exists n.
Qed.

Lemma fetched_rows_meet_threshold_witness :
  Forall (λ row, ∃ n, like_count_of row = Some (VInt n) ∧ 1000 ≤ n)
    (fetched_rows (fetch_for_keyword Sample.api "#cats" 1000 2)).
Proof.
  apply (fetched_rows_meet_threshold Sample.api "#cats" 1000 2).
  vm_compute. reflexivity.
Defined.

(** ** CrawlOrchestrator *)

Section Isolation.
Variables (api : TikTokApi) (min_likes max_per_keyword : Z).

Local Abbreviation fetch keyword :=
  (fetch_for_keyword api keyword min_likes max_per_keyword).

Lemma fetched_rows_raises keyword :
  raises (result (fetch keyword)) = true → fetched_rows (fetch keyword) = [].
Proof. unfold fetched_rows. by destruct (result (fetch keyword)). Qed.

Lemma fetched_rows_succeeded keywords :
  flat_map (λ keyword, fetched_rows (fetch keyword)) keywords
  = flat_map (λ keyword, fetched_rows (fetch keyword))
      (List.filter (λ keyword, negb (raises (result (fetch keyword)))) keywords).
Proof.
  induction keywords as [|keyword rest IH]; simpl; [done|].
  destruct (raises (result (fetch keyword))) eqn:Hr; simpl.
  - by rewrite fetched_rows_raises.
  - by rewrite IH.
Qed.

Lemma fetched_rows_all_raise keywords :
  forallb (λ keyword, raises (result (fetch keyword))) keywords = true →
  flat_map (λ keyword, fetched_rows (fetch keyword)) keywords = [].
Proof.
  induction keywords as [|keyword rest IH]; simpl; [done|].
  intros [Hk Hrest]%andb_true_iff.
  by rewrite fetched_rows_raises, IH.
Qed.
End Isolation.

(** C3.  When every error the fetches raise is an [Exception], the loop
    returns the aggregate and does not raise: the rows of the keywords whose
    fetch succeeded, in keyword order.  A keyword X whose fetch raises adds
    nothing: the aggregate is the one of the list without X.  When every
    fetch raises the aggregate is empty. *)
Theorem crawl_loop_isolates_failures
    api min_likes max_per_keyword (keywords : list string) :
  contained api min_likes max_per_keyword keywords = true →
  let fetch := λ keyword,
    fetch_for_keyword api keyword min_likes max_per_keyword in
  let succeeded :=
    List.filter (λ keyword, negb (raises (result (fetch keyword)))) keywords in
  result (crawl_loop api keywords min_likes max_per_keyword [])
  = Return (flat_map (λ keyword, fetched_rows (fetch keyword)) succeeded)
  ∧ (∀ before X after,
       keywords = before ++ X :: after →
       raises (result (fetch X)) = true →
       result (crawl_loop api keywords min_likes max_per_keyword [])
       = Return (flat_map (λ keyword, fetched_rows (fetch keyword)) before
                 ++ flat_map (λ keyword, fetched_rows (fetch keyword)) after)
       ∧ result (crawl_loop api keywords min_likes max_per_keyword [])
         = result (crawl_loop api (before ++ after) min_likes max_per_keyword []))
  ∧ (forallb (λ keyword, raises (result (fetch keyword))) keywords = true →
     result (crawl_loop api keywords min_likes max_per_keyword []) = Return []).
Proof.
  intros Hc fetch succeeded. subst succeeded fetch. cbv beta.
  rewrite (crawl_loop_run _ _ _ _ [] Hc). simpl.
  split; [|split].
  - by rewrite <- fetched_rows_succeeded.
  - intros before X after -> HX.
    rewrite contained_app in Hc. apply andb_true_iff in Hc as [Hb Ha].
    simpl in Ha. apply andb_true_iff in Ha as [_ Ha].
    rewrite crawl_loop_run by (rewrite contained_app; by rewrite Hb, Ha).
    simpl. rewrite !flat_map_app. simpl.
    by rewrite (fetched_rows_raises _ _ _ _ HX).
  - intros Hall. by rewrite fetched_rows_all_raise.
Qed.

Lemma crawl_loop_isolates_failures_witness :
  result (crawl_loop Sample.api ["#cats"; "dogs"; "#cats"] 1000 2 [])
  = Return (fetched_rows (fetch_for_keyword Sample.api "#cats" 1000 2)
            ++ fetched_rows (fetch_for_keyword Sample.api "#cats" 1000 2))
  ∧ result (crawl_loop Sample.api ["dogs"; "dogs"] 1000 2 []) = Return [].
Proof.
  split.
  - apply (proj1 (crawl_loop_isolates_failures Sample.api 1000 2
                    ["#cats"; "dogs"; "#cats"] eq_refl)).
  - apply (proj2 (proj2 (crawl_loop_isolates_failures Sample.api 1000 2
                           ["dogs"; "dogs"] eq_refl))).
    reflexivity.
Defined.

(** ** ResultSink *)




(** ** The run *)

(** C8.  When the credentials or the keyword input fail their validation,
    [main_async] raises with an empty trace: no session is opened, nothing is
    fetched and nothing is written.  The error is the one of the credentials
    when they fail, and the one of the keyword input otherwise. *)
Theorem preflight_aborts_before_network (w : world) (args : Namespace) :
  raises (ensure_ms_tokens (getenv w)) = true
  ∨ raises (read_keywords_safe (files w) (input args)) = true →
  trace (main_async w args) = []
  ∧ raises (result (main_async w args)) = true
  ∧ (∀ e, ensure_ms_tokens (getenv w) = Raise e →
          result (main_async w args) = Raise e)
  ∧ (∀ e, raises (ensure_ms_tokens (getenv w)) = false →
          read_keywords_safe (files w) (input args) = Raise e →
          result (main_async w args) = Raise e).
Proof.
  intros Hfail.
  destruct (ensure_ms_tokens (getenv w)) as [ms_tokens|e1] eqn:Ht.
  - destruct (read_keywords_safe (files w) (input args)) as [keywords|e2] eqn:Hk.
    + by destruct Hfail.
    + rewrite (main_async_no_keywords w args ms_tokens e2 Ht Hk).
      repeat split; try done. by intros e _ [= <-].
  - rewrite (main_async_no_tokens w args e1 Ht).
    repeat split; try done. by intros e [= <-].
Qed.

Lemma preflight_aborts_before_network_witness :
  main_async Sample.w_no_tokens Sample.args = ([], Raise RuntimeError)
  ∧ main_async Sample.w
      {| input := "missing.csv"; output := "out.csv"; min_likes := 1000;
         max_per_keyword := 2 |}
    = ([], Raise FileNotFoundError).
Proof.
  split.
  - pose proof (preflight_aborts_before_network Sample.w_no_tokens Sample.args
                  (or_introl eq_refl)) as (Ht & _ & He & _).
    specialize (He RuntimeError eq_refl).
    destruct (main_async Sample.w_no_tokens Sample.args) as [t r].
    simpl in Ht, He. by rewrite Ht, He.
  - pose proof (preflight_aborts_before_network Sample.w
                  {| input := "missing.csv"; output := "out.csv";
                     min_likes := 1000; max_per_keyword := 2 |}
                  (or_intror eq_refl)) as (Ht & _ & _ & He).
    specialize (He FileNotFoundError eq_refl eq_refl).
    destruct (main_async Sample.w _) as [t r].
    simpl in Ht, He. by rewrite Ht, He.
Defined.

Lemma occurrences_map_le (f : string → string) x l :
  (occurrences x l ≤ occurrences (f x) (map f l))%nat.
Proof.
  unfold occurrences.
  induction l as [|y l IH]; simpl; [done|].
  destruct (String.string_dec y x) as [->|Hne].
  - destruct (String.string_dec (f x) (f x)); [lia|done].
  - destruct (String.string_dec (f y) (f x)); lia.
Qed.

(** C9.  Keywords are not deduplicated.  A keyword that is the trimmed first
    cell of k surviving rows stands k times in the keyword list, and in a run
    that passes its validations and opens its sessions the platform is asked
    once per entry of the list, in order, so at least k times for the hashtag
    of that keyword; the credential tokens, in contrast, never repeat. *)
Theorem keywords_are_not_deduplicated
    (w : world) (args : Namespace) rows ms_tokens (keyword : string) :
  files w (input args) = Some rows →
  ensure_ms_tokens (getenv w) = Return ms_tokens →
  create_sessions (platform w) ms_tokens (length ms_tokens) 3 (browser_of w)
    = Return tt →
  let keywords := read_keywords_loop rows [] in
  keywords ≠ [] →
  contained (platform w) (min_likes args) (max_per_keyword args) keywords
    = true →
  let k := length (List.filter
                     (λ row, survives row
                             && String.eqb (PyStr.strip (first_cell row)) keyword)
                     rows) in
  occurrences keyword keywords = k
  ∧ fetches_of (trace (main_async w args)) = map PyStr.lstrip_hash keywords
  ∧ (k ≤ occurrences (PyStr.lstrip_hash keyword)
           (fetches_of (trace (main_async w args))))%nat
  ∧ NoDup ms_tokens.
Proof.
  intros Hrows Ht Hs keywords Hne Hc k.
  assert (occurrences keyword keywords = k) as Hk.
  { unfold keywords, k. rewrite read_keywords_loop_survivors. simpl.
    apply occurrences_map_filter. }
  assert (read_keywords_safe (files w) (input args) = Return keywords) as Hsafe.
  { unfold read_keywords_safe, read_keywords. rewrite Hrows. simpl.
    fold keywords. by destruct keywords. }
  assert (fetches_of (trace (main_async w args))
          = map PyStr.lstrip_hash keywords) as Hf.
  { rewrite (main_async_crawled w args ms_tokens keywords Ht Hsafe Hs Hc).
    cbv zeta. cbn [trace fst fetches_of]. rewrite fetches_of_app.
    cbn [fetches_of]. rewrite write_rows_no_fetches.
    by rewrite fetches_of_crawl, app_nil_r. }
  split; [done|]. split; [done|]. split.
  - rewrite Hf, <- Hk. apply occurrences_map_le.
  - unfold ensure_ms_tokens, get_ms_tokens in Ht.
    destruct (parse_ms_tokens _) eqn:Hp; [done|].
    injection Ht as <-. rewrite <- Hp, parse_ms_tokens_fresh.
    apply fresh_tokens_NoDup.
Qed.

Lemma keywords_are_not_deduplicated_witness :
  occurrences "#cats" (read_keywords_loop Sample.rows_twice []) = 2%nat
  ∧ fetches_of (trace (main_async Sample.w_twice Sample.args))
    = ["cats"; "dogs"; "cats"].
Proof.
  pose proof (keywords_are_not_deduplicated Sample.w_twice Sample.args
                Sample.rows_twice ["tokA"; "tokB"] "#cats"
                eq_refl eq_refl eq_refl) as H.
  cbv zeta in H.
  destruct H as (H1 & H2 & _).
  - vm_compute. discriminate.
  - vm_compute. reflexivity.
  - split; [exact H1 | exact H2].
Defined.

(** ** The worked run, evaluated *)

Example strip_both_ends : PyStr.strip "  ab c  " = "ab c".
Proof. reflexivity. Qed.

Example split_on_separators :
  PyStr.re_split_seps ",a;; b ,c," = [""; "a"; "b"; "c"; ""].
Proof. reflexivity. Qed.

Example sample_tokens : get_ms_tokens (getenv Sample.w) = Return ["tokA"; "tokB"].
Proof. vm_compute. reflexivity. Qed.

Example int_of_literal : Py.int_of_str " -1_000 " = Some (-1000).
Proof. reflexivity. Qed.

(** Two records for [#cats], the fourth candidate never pulled, nothing for
    [dogs], and a file of a header and two rows. *)
Example sample_run :
  fetches_of (trace (main_async Sample.w Sample.args)) = ["cats"; "dogs"]
  ∧ result (main_async Sample.w Sample.args) = Return tt
  ∧ trace (fetch_for_keyword Sample.api "#cats" 1000 2)
    = HashtagVideos "cats" 200 :: map Yielded (take 3 Sample.cats_videos)
  ∧ ∃ header r1 r2,
      last (trace (main_async Sample.w Sample.args))
      = Some (WriteFile "out.csv" [header; r1; r2]).
Proof.
  repeat split; try (vm_compute; reflexivity).
  vm_compute. by eexists _, _, _.
Qed.

(** * Further properties *)

(** ** The fetch loop below its cap *)

Lemma accepted_app keyword min_likes vs1 vs2 :
  accepted keyword min_likes (vs1 ++ vs2)
  = accepted keyword min_likes vs1 ++ accepted keyword min_likes vs2.
Proof. unfold accepted. apply omap_app. Qed.

(** While fewer rows are held than the cap asks for, the loop walks through
    a prefix of well-formed videos and goes on with what follows it. *)
Lemma fetch_loop_prefix keyword min_likes max_results vs tail :
  Forall (λ v, raises (video_row keyword min_likes v) = false) vs →
  ∀ results,
    Z.of_nat (length results + length (accepted keyword min_likes vs))
      < Z.max 1 max_results →
    let m := fetch_loop tail keyword min_likes max_results
               (results ++ accepted keyword min_likes vs) in
    fetch_loop (prepend vs tail) keyword min_likes max_results results
    = (map Yielded vs ++ trace m, result m).
Proof.
  induction 1 as [|v vs Hv _ IH]; intros results Hlen; cbv zeta.
  - simpl. rewrite app_nil_r. by destruct (fetch_loop _ _ _ _ _).
  - change (prepend (v :: vs) tail) with (Yield v (prepend vs tail)).
    rewrite fetch_loop_step. rewrite accepted_cons in Hlen |- *.
    destruct (video_row keyword min_likes v) as [[row|]|e]; [| |done].
    + simpl in Hlen.
      assert (Z.of_nat (length (results ++ [row])) >=? max_results = false)
        as ->.
      { rewrite Z.geb_leb. apply Z.leb_gt. rewrite length_app. simpl. lia. }
      cbv zeta. rewrite IH by (rewrite length_app; simpl; lia).
      cbv zeta. simpl. by rewrite <- app_assoc.
    + cbv zeta. rewrite IH by done. done.
Qed.

Lemma fetch_loop_bounded keyword min_likes max_results videos :
  ∀ results rows,
    Z.of_nat (length results) < Z.max 1 max_results →
    result (fetch_loop videos keyword min_likes max_results results)
      = Return rows →
    Z.of_nat (length rows) ≤ Z.max 1 max_results.
Proof.
  induction videos as [|v rest IH|e]; intros results rows Hlen.
  - simpl. intros [= <-]. lia.
  - rewrite fetch_loop_step.
    destruct (video_row keyword min_likes v) as [[row|]|e]; [| |done].
    + destruct (Z.of_nat (length (results ++ [row])) >=? max_results) eqn:Hge.
      * simpl. intros [= <-]. rewrite length_app. simpl. lia.
      * cbv zeta. simpl. apply IH.
        rewrite Z.geb_leb in Hge. apply Z.leb_gt in Hge. lia.
    + cbv zeta. simpl. by apply IH.
  - done.
Qed.

(** X1.  A fetch never returns more than max(1, cap) rows, whatever the
    upstream yields and however it ends. *)
Theorem fetched_rows_bounded api keyword min_likes max_results :
  Z.of_nat (length (fetched_rows
                      (fetch_for_keyword api keyword min_likes max_results)))
  ≤ Z.max 1 max_results.
Proof.
  unfold fetched_rows. rewrite fetch_for_keyword_unfold. simpl.
  destruct (result (fetch_loop _ _ _ _ _)) as [rows|e] eqn:Hr; [|simpl; lia].
  eapply fetch_loop_bounded; [|exact Hr]. simpl. lia.
Qed.

Section Fetch.
Variables (api : TikTokApi) (keyword : string) (min_likes max_results : Z).

Local Abbreviation name := (PyStr.lstrip_hash keyword).
Local Abbreviation well_formed vs :=
  (Forall (λ v, raises (video_row keyword min_likes v) = false) vs).

(** X3.  The cap reached: the rest of the upstream is never pulled, even
    one that would fail. *)
Theorem fetch_for_keyword_early_stop pre v rest :
  hashtag_videos api name FETCH_COUNT_PER_KEYWORD = prepend (pre ++ [v]) rest →
  1 ≤ max_results →
  well_formed (pre ++ [v]) →
  Z.of_nat (length (accepted keyword min_likes (pre ++ [v]))) = max_results →
  accepted keyword min_likes [v] ≠ [] →
  fetch_for_keyword api keyword min_likes max_results
  = (HashtagVideos name FETCH_COUNT_PER_KEYWORD :: map Yielded (pre ++ [v]),
     Return (accepted keyword min_likes (pre ++ [v]))).
Proof.
  intros Hvs Hcap Hok Hlen Hv.
  rewrite fetch_for_keyword_unfold, Hvs.
  by rewrite (fetch_loop_early_stop keyword min_likes max_results pre v rest
                Hcap Hok [] Hlen Hv).
Qed.

(** X4.  A cap of zero or less: the fetch returns the first accepted row
    alone, or nothing when no video is accepted. *)
Theorem fetch_for_keyword_cap_nonpositive vs :
  hashtag_videos api name FETCH_COUNT_PER_KEYWORD = of_list vs →
  max_results ≤ 0 →
  well_formed vs →
  result (fetch_for_keyword api keyword min_likes max_results)
  = Return (take 1 (accepted keyword min_likes vs)).
Proof.
  intros Hvs Hcap Hok. rewrite fetch_for_keyword_unfold, Hvs. simpl.
  by apply fetch_loop_cap_nonpositive.
Qed.

(** X5.  An upstream that fails before the cap is reached makes the fetch
    raise that error after every video before it was pulled; the rows
    accepted so far are not returned. *)
Theorem fetch_for_keyword_upstream_failure vs e :
  hashtag_videos api name FETCH_COUNT_PER_KEYWORD = prepend vs (Fails e) →
  well_formed vs →
  Z.of_nat (length (accepted keyword min_likes vs)) < Z.max 1 max_results →
  fetch_for_keyword api keyword min_likes max_results
  = (HashtagVideos name FETCH_COUNT_PER_KEYWORD :: map Yielded vs, Raise e)
  ∧ fetched_rows (fetch_for_keyword api keyword min_likes max_results) = [].
Proof.
  intros Hvs Hok Hlen.
  assert (fetch_for_keyword api keyword min_likes max_results
          = (HashtagVideos name FETCH_COUNT_PER_KEYWORD :: map Yielded vs,
             Raise e)) as Heq.
  { rewrite fetch_for_keyword_unfold, Hvs.
    rewrite (fetch_loop_prefix keyword min_likes max_results vs (Fails e) Hok [])
      by (simpl; lia).
    simpl. by rewrite app_nil_r. }
  split; [done|]. by rewrite Heq.
Qed.

(** X6.  A video whose fields make the row raise stops the fetch with that
    error when it comes before the cap is reached. *)
Theorem fetch_for_keyword_item_failure pre bad rest e :
  hashtag_videos api name FETCH_COUNT_PER_KEYWORD
    = prepend pre (Yield bad rest) →
  well_formed pre →
  Z.of_nat (length (accepted keyword min_likes pre)) < Z.max 1 max_results →
  video_row keyword min_likes bad = Raise e →
  fetch_for_keyword api keyword min_likes max_results
  = (HashtagVideos name FETCH_COUNT_PER_KEYWORD :: map Yielded (pre ++ [bad]),
     Raise e).
Proof.
  intros Hvs Hok Hlen Hbad.
  rewrite fetch_for_keyword_unfold, Hvs.
  rewrite (fetch_loop_prefix keyword min_likes max_results pre _ Hok [])
    by (simpl; lia).
  cbv zeta. rewrite fetch_loop_step, Hbad. simpl. by rewrite map_app.
Qed.

(** X7.  When every video is below the threshold, the fetch pulls the whole
    upstream and returns no row; the author of such a video is never read. *)
Theorem fetch_for_keyword_all_below vs :
  hashtag_videos api name FETCH_COUNT_PER_KEYWORD = of_list vs →
  Forall (λ v, ∃ n, video_like_count v = Return n ∧ n < min_likes) vs →
  fetch_for_keyword api keyword min_likes max_results
  = (HashtagVideos name FETCH_COUNT_PER_KEYWORD :: map Yielded vs, Return []).
Proof.
  intros Hvs Hlow.
  assert (Forall (λ v, video_row keyword min_likes v = Return None) vs) as Hnone.
  { eapply Forall_impl; [exact Hlow|]. intros v (n & Hn & Hlt).
    unfold video_row. rewrite Hn. simpl.
    by rewrite (proj2 (Z.ltb_lt n min_likes) Hlt). }
  assert (accepted keyword min_likes vs = []) as Hacc.
  { clear Hvs Hlow. induction Hnone as [|v vs Hv _ IH]; [done|].
    by rewrite accepted_cons, Hv. }
  rewrite fetch_for_keyword_unfold, Hvs. unfold of_list.
  rewrite (fetch_loop_prefix keyword min_likes max_results vs Exhausted)
    by first [ eapply Forall_impl; [exact Hnone|]; by intros v ->
             | rewrite Hacc; simpl; lia ].
  simpl. by rewrite Hacc, app_nil_r.
Qed.

(** X8.  Every row carries the keyword as it was given, leading [#]
    included, while the platform is asked once, for the name without its
    leading [#]s. *)
Theorem fetch_for_keyword_keeps_keyword :
  Forall (λ row, Py.lookup row "keyword" = Some (VStr keyword))
    (fetched_rows (fetch_for_keyword api keyword min_likes max_results))
  ∧ fetches_of (trace (fetch_for_keyword api keyword min_likes max_results))
    = [name]
  ∧ headed (λ c, Ascii.eqb c "#") name = true
  ∧ PyStr.lstrip_hash name = name.
Proof.
  split; [|split; [|split]].
  - unfold fetched_rows. rewrite fetch_for_keyword_unfold. simpl.
    destruct (result (fetch_loop _ _ _ _ _)) as [rows|e] eqn:Hr; [|constructor].
    eapply (fetch_loop_Forall
              (λ row, Py.lookup row "keyword" = Some (VStr keyword)));
      [|constructor|exact Hr].
    intros v row Hrow.
    by apply video_row_shape in Hrow as (n & _ & _ & _ & _ & ?).
  - apply fetches_of_fetch.
  - apply lstrip_chars_headed.
  - apply lstrip_chars_fixed, lstrip_chars_headed.
Qed.
End Fetch.

Lemma fetch_for_keyword_cap_witness :
  result (fetch_for_keyword Sample.api "#cats" 1000 2)
  = Return (take 2 (accepted "#cats" 1000 Sample.cats_videos))
  ∧ Z.of_nat (length (fetched_rows (fetch_for_keyword Sample.api "#cats" 1000 2)))
    = Z.min (Z.of_nat (length (accepted "#cats" 1000 Sample.cats_videos))) 2
  ∧ 0 ≤ Z.of_nat (length (fetched_rows
                            (fetch_for_keyword Sample.api "#cats" 1000 2))) ≤ 2.
Proof.
  apply (fetch_for_keyword_cap Sample.api "#cats" 1000 2 Sample.cats_videos);
    [reflexivity | lia | repeat constructor].
Defined.

Lemma fetch_for_keyword_early_stop_witness :
  fetch_for_keyword Sample.api_failing_late "cats" 1000 2
  = (HashtagVideos "cats" 200 :: map Yielded (take 3 Sample.cats_videos),
     Return (accepted "cats" 1000 (take 3 Sample.cats_videos))).
Proof.
  apply (fetch_for_keyword_early_stop Sample.api_failing_late "cats" 1000 2
           (take 2 Sample.cats_videos) (Sample.vid "3" (VInt 2000))
           (Fails (OtherException "TimeoutError")));
    [reflexivity | lia | repeat constructor | reflexivity | discriminate].
Defined.

Lemma fetch_for_keyword_cap_nonpositive_witness :
  result (fetch_for_keyword Sample.api "cats" 1000 (-3))
  = Return (take 1 (accepted "cats" 1000 Sample.cats_videos)).
Proof.
  apply (fetch_for_keyword_cap_nonpositive Sample.api "cats" 1000 (-3)
           Sample.cats_videos); [reflexivity | lia | repeat constructor].
Defined.

Lemma fetch_for_keyword_upstream_failure_witness :
  fetch_for_keyword Sample.api_failing_late "cats" 1000 3
  = (HashtagVideos "cats" 200 :: map Yielded (take 3 Sample.cats_videos),
     Raise (OtherException "TimeoutError"))
  ∧ fetched_rows (fetch_for_keyword Sample.api_failing_late "cats" 1000 3) = [].
Proof.
  apply (fetch_for_keyword_upstream_failure Sample.api_failing_late "cats"
           1000 3 (take 3 Sample.cats_videos) (OtherException "TimeoutError"));
    [reflexivity | repeat constructor | vm_compute; reflexivity].
Defined.

Lemma fetch_for_keyword_item_failure_witness :
  fetch_for_keyword Sample.garbled_api "cats" 0 5
  = (HashtagVideos "cats" 200 :: map Yielded ([] ++ [Sample.garbled]),
     Raise ValueError).
Proof.
  apply (fetch_for_keyword_item_failure Sample.garbled_api "cats" 0 5
           [] Sample.garbled Exhausted ValueError);
    [reflexivity | constructor | vm_compute; reflexivity | reflexivity].
Defined.

Lemma fetch_for_keyword_all_below_witness :
  fetch_for_keyword Sample.api "cats" 5000 2
  = (HashtagVideos "cats" 200 :: map Yielded Sample.cats_videos, Return []).
Proof.
  apply (fetch_for_keyword_all_below Sample.api "cats" 5000 2 Sample.cats_videos);
    [reflexivity|].
  repeat constructor; eexists; (split; [reflexivity|lia]).
Defined.

(** ** Tokens across channels *)

Lemma fresh_tokens_app seen ys zs :
  fresh_tokens seen (ys ++ zs)
  = fresh_tokens seen ys
    ++ fresh_tokens (list_to_set (fresh_tokens seen ys) ∪ seen) zs.
Proof.
  revert seen.
  induction ys as [|y ys IH]; intros seen; simpl.
  - by rewrite (left_id_L ∅ (∪)).
  - destruct (String.eqb y "" || bool_decide (y ∈ seen)); [apply IH|].
    simpl. rewrite IH. do 3 f_equal. set_solver.
Qed.

Lemma fresh_tokens_filter (known seen : gset string) ys :
  fresh_tokens (known ∪ seen) ys
  = filter (λ t, t ∉ known) (fresh_tokens seen ys).
Proof.
  revert seen.
  induction ys as [|y ys IH]; intros seen; simpl; [done|].
  destruct (String.eqb y "") eqn:Hy; simpl; [apply IH|].
  destruct (decide (y ∈ seen)) as [Hs|Hs].
  - rewrite !bool_decide_eq_true_2 by set_solver. apply IH.
  - rewrite (bool_decide_eq_false_2 (y ∈ seen)) by done.
    destruct (decide (y ∈ known)) as [Hk|Hk].
    + rewrite bool_decide_eq_true_2 by set_solver.
      rewrite filter_cons_False by (intros H; by apply H).
      rewrite <- IH. f_equal. set_solver.
    + rewrite bool_decide_eq_false_2 by set_solver.
      rewrite filter_cons_True by done.
      rewrite <- IH. do 2 f_equal. set_solver.
Qed.

(** X9.  Tokens of a later part of the input come after the tokens of the
    earlier part, without the ones the earlier part already gave. *)
Theorem parse_ms_tokens_app (xs ys : list string) :
  parse_ms_tokens (xs ++ ys)
  = parse_ms_tokens xs
    ++ filter (λ t, t ∉ parse_ms_tokens xs) (parse_ms_tokens ys).
Proof.
  rewrite !parse_ms_tokens_fresh, map_app, fresh_tokens_app.
  f_equal. rewrite fresh_tokens_filter.
  apply list_filter_iff. intros t. set_solver.
Qed.

(** ** Splitting a channel *)

Lemma no_sep_app s t : no_sep (s +:+ t) = no_sep s && no_sep t.
Proof.
  induction s as [|c s IH]; simpl; [done|].
  rewrite IH. by rewrite andb_assoc.
Qed.

Lemma split_loop_no_sep cur s :
  no_sep cur = true → Forall (λ piece, no_sep piece = true) (PyStr.split_loop cur s).
Proof.
  revert cur.
  induction s as [|c s IH]; intros cur Hcur; simpl.
  - by constructor.
  - destruct (PyStr.is_sep c) eqn:Hc.
    + destruct (PyStr.starts_with_sep s); [by apply IH|].
      constructor; [done|]. by apply IH.
    + apply IH. rewrite no_sep_app, Hcur. simpl. by rewrite Hc.
Qed.

Lemma append_cons c (s t : string) : String c s +:+ t = String c (s +:+ t).
Proof. reflexivity. Qed.

Lemma append_empty_r (s : string) : s +:+ "" = s.
Proof.
  induction s as [|c s IH]; [done|]. by rewrite append_cons, IH.
Qed.

Lemma concat_empty_cons (s : string) (l : list string) :
  String.concat "" (s :: l) = s +:+ String.concat "" l.
Proof.
  destruct l as [|t l]; simpl; [|done]. by rewrite append_empty_r.
Qed.

Lemma string_app_assoc (s t u : string) : (s +:+ t) +:+ u = s +:+ (t +:+ u).
Proof.
  induction s as [|c s IH]; [done|]. by rewrite !append_cons, IH.
Qed.

Lemma split_loop_concat cur s :
  String.concat "" (PyStr.split_loop cur s) = cur +:+ without_seps s.
Proof.
  revert cur.
  induction s as [|c s IH]; intros cur; simpl.
  - simpl. by rewrite append_empty_r.
  - destruct (PyStr.is_sep c).
    + destruct (PyStr.starts_with_sep s); [apply IH|].
      rewrite concat_empty_cons, IH. done.
    + rewrite IH, string_app_assoc. done.
Qed.

(** X10.  Splitting a channel value loses nothing but separators: the
    pieces, put together again, are the value without its whitespace,
    commas and semicolons; no piece holds a separator, and there is always
    at least one piece. *)
Theorem re_split_seps_pieces (value : string) :
  String.concat "" (PyStr.re_split_seps value) = without_seps value
  ∧ Forall (λ piece, no_sep piece = true) (PyStr.re_split_seps value)
  ∧ PyStr.re_split_seps value ≠ [].
Proof.
  unfold PyStr.re_split_seps. split; [|split].
  - by rewrite split_loop_concat.
  - by apply split_loop_no_sep.
  - destruct value as [|c s]; simpl; [done|].
    destruct (PyStr.is_sep c); [destruct (PyStr.starts_with_sep s)|].
    + clear. generalize "". induction s as [|d s IH]; intros cur; simpl; [done|].
      destruct (PyStr.is_sep d); [destruct (PyStr.starts_with_sep s)|];
        [apply IH|done|apply IH].
    + done.
    + generalize ("" +:+ String c ""). clear.
      induction s as [|d s IH]; intros cur; simpl; [done|].
      destruct (PyStr.is_sep d); [destruct (PyStr.starts_with_sep s)|];
        [apply IH|done|apply IH].
Qed.

Lemma no_sep_lstrip s :
  no_sep s = true → PyStr.lstrip_chars PyStr.isspace s = s.
Proof.
  destruct s as [|c s]; simpl; [done|].
  unfold PyStr.is_sep. destruct (PyStr.isspace c); simpl; done.
Qed.

Lemma no_sep_rstrip s :
  no_sep s = true → PyStr.rstrip_chars PyStr.isspace s = s.
Proof.
  induction s as [|c s IH]; simpl; [done|].
  intros [Hc Hs]%andb_true_iff. rewrite (IH Hs).
  destruct s; [|done].
  unfold PyStr.is_sep in Hc. by destruct (PyStr.isspace c).
Qed.

Lemma no_sep_strip s : no_sep s = true → PyStr.strip s = s.
Proof.
  intros Hs. unfold PyStr.strip. by rewrite no_sep_lstrip, no_sep_rstrip.
Qed.

Lemma collect_raw_tokens_no_sep getenv env_names collected :
  Forall (λ raw, no_sep raw = true) collected →
  Forall (λ raw, no_sep raw = true)
    (collect_raw_tokens getenv env_names collected).
Proof.
  revert collected.
  induction env_names as [|env_name rest IH]; intros collected Hc; simpl;
    [done|].
  destruct (getenv env_name) as [value|]; [|by apply IH].
  destruct (String.eqb value ""); [by apply IH|].
  apply IH, Forall_app. split; [done|].
  by apply split_loop_no_sep.
Qed.

(** X11.  No token [get_ms_tokens] returns holds whitespace, a comma or a
    semicolon, and each one is a piece of a channel as it stands there. *)
Theorem get_ms_tokens_no_separators (getenv : environ) tokens :
  get_ms_tokens getenv = Return tokens →
  Forall (λ t, no_sep t = true
               ∧ t ∈ collect_raw_tokens getenv ms_token_env_names []) tokens.
Proof.
  unfold get_ms_tokens.
  destruct (parse_ms_tokens _) as [|t0 l] eqn:Hp; [done|].
  intros [= <-]. rewrite <- Hp. apply Forall_forall. intros t Ht.
  apply parse_ms_tokens_elem in Ht as [_ Ht].
  apply list_elem_of_In, in_map_iff in Ht as (raw & <- & Hraw).
  apply list_elem_of_In in Hraw.
  pose proof (collect_raw_tokens_no_sep getenv ms_token_env_names []
                (Forall_nil_2 _)) as Hall.
  rewrite Forall_forall in Hall.
  rewrite (no_sep_strip raw) by by apply Hall.
  split; [by apply Hall | done].
Qed.

Lemma get_ms_tokens_no_separators_witness :
  Forall (λ t, no_sep t = true
               ∧ t ∈ collect_raw_tokens (getenv Sample.w) ms_token_env_names [])
    ["tokA"; "tokB"].
Proof.
  apply (get_ms_tokens_no_separators (getenv Sample.w) ["tokA"; "tokB"]).
  vm_compute. reflexivity.
Defined.

(** ** Keywords *)

Lemma survives_first_cell row row' :
  first_cell row = first_cell row' → survives row = survives row'.
Proof.
  intros H. unfold survives, blank_first_cell, header_row. by rewrite H.
Qed.

(** X12.  Only the first column of the table is read: two tables with the
    same first cells, row by row, give the same keywords. *)
Theorem read_keywords_first_column_only (rows rows' : list (list string)) :
  map first_cell rows = map first_cell rows' →
  read_keywords_loop rows [] = read_keywords_loop rows' [].
Proof.
  rewrite !read_keywords_loop_survivors. simpl.
  revert rows'.
  induction rows as [|row rows IH]; intros [|row' rows'] Heq;
    try discriminate Heq; [done|].
  simpl in Heq. injection Heq as Hc Heq. simpl.
  rewrite (survives_first_cell row row' Hc).
  destruct (survives row'); simpl; [rewrite Hc; f_equal|]; by apply IH.
Qed.

Lemma read_keywords_first_column_only_witness :
  read_keywords_loop [["keyword"; "note"]; ["#cats"; "x"; "y"]; []; ["dogs"]] []
  = read_keywords_loop [["keyword"]; ["#cats"]; [""]; ["dogs"; "z"]] [].
Proof.
  apply (read_keywords_first_column_only
           [["keyword"; "note"]; ["#cats"; "x"; "y"]; []; ["dogs"]]
           [["keyword"]; ["#cats"]; [""]; ["dogs"; "z"]]).
  reflexivity.
Defined.

Lemma survives_kept row :
  survives row = true →
  PyStr.strip (first_cell row) ≠ ""
  ∧ PyStr.lower (PyStr.strip (first_cell row)) ∉ header_stoplist
  ∧ survives [PyStr.strip (first_cell row)] = true.
Proof.
  intros Hs.
  split; [|split].
  - unfold survives, blank_first_cell in Hs.
    apply andb_true_iff in Hs as [Hb _]. apply negb_true_iff in Hb.
    by apply String.eqb_neq in Hb.
  - unfold survives, header_row in Hs.
    apply andb_true_iff in Hs as [_ Hh]. apply negb_true_iff in Hh.
    by apply bool_decide_eq_false in Hh.
  - unfold survives, blank_first_cell, header_row, first_cell in *.
    cbn [hd]. by rewrite strip_idem.
Qed.

(** X13.  Every keyword returned is not empty, equal to its own trim and, in
    lower case, no header word; a one-column table of the keywords is read
    back as the same list. *)
Theorem read_keywords_loop_stable (rows : list (list string)) :
  let keywords := read_keywords_loop rows [] in
  Forall (λ k, k ≠ "" ∧ PyStr.strip k = k
               ∧ PyStr.lower k ∉ header_stoplist) keywords
  ∧ read_keywords_loop (map (λ k, [k]) keywords) [] = keywords.
Proof.
  cbv zeta. rewrite !read_keywords_loop_survivors. cbn [app].
  induction rows as [|row rows [IH1 IH2]]; cbn [List.filter map]; [by split|].
  destruct (survives row) eqn:Hs; [|by split].
  apply survives_kept in Hs as (Hne & Hl & Hs).
  cbn [List.filter map]. rewrite Hs. cbn [map]. split.
  - constructor; [|exact IH1]. split; [done|]. split; [apply strip_idem|done].
  - unfold first_cell at 1. cbn [hd]. by rewrite strip_idem, IH2.
Qed.

(** ** The sink on any rows *)








(** ** Runs that end early, and runs that end well *)

(** X16.  When the sessions cannot be opened the run raises that error: the
    platform is entered and left, nothing is fetched and no file is
    written. *)
Theorem main_async_sessions_fail (w : world) (args : Namespace)
    ms_tokens keywords e :
  ensure_ms_tokens (getenv w) = Return ms_tokens →
  read_keywords_safe (files w) (input args) = Return keywords →
  create_sessions (platform w) ms_tokens (length ms_tokens) 3 (browser_of w)
    = Raise e →
  main_async w args
  = ([ApiEnter;
      CreateSessions ms_tokens (length ms_tokens) 3 (browser_of w);
      ApiExit],
     Raise e)
  ∧ fetches_of (trace (main_async w args)) = []
  ∧ wrote_file (trace (main_async w args)) = false.
Proof.
  intros Ht Hk Hs.
  assert (main_async w args
          = ([ApiEnter;
              CreateSessions ms_tokens (length ms_tokens) 3 (browser_of w);
              ApiExit], Raise e)) as Heq.
  { unfold main_async. rewrite Ht, Hk. cbn [lift bind app].
    unfold browser_of in Hs. rewrite Hs. reflexivity. }
  by rewrite Heq.
Qed.

Lemma main_async_sessions_fail_witness :
  main_async Sample.w_no_sessions Sample.args
  = ([ApiEnter; CreateSessions ["tokA"; "tokB"] 2 3 "chromium"; ApiExit],
     Raise (OtherException "BrowserError")).
Proof.
  apply (proj1 (main_async_sessions_fail Sample.w_no_sessions Sample.args
                  ["tokA"; "tokB"] ["#cats"; "dogs"]
                  (OtherException "BrowserError") eq_refl eq_refl eq_refl)).
Defined.

Lemma crawl_loop_app api before after min_likes max_per_keyword aggregated :
  contained api min_likes max_per_keyword before = true →
  let fetch := λ keyword,
    fetch_for_keyword api keyword min_likes max_per_keyword in
  let m := crawl_loop api after min_likes max_per_keyword
             (aggregated ++ flat_map (λ k, fetched_rows (fetch k)) before) in
  crawl_loop api (before ++ after) min_likes max_per_keyword aggregated
  = (flat_map (λ k, trace (fetch k)) before ++ trace m, result m).
Proof.
  revert aggregated.
  induction before as [|keyword rest IH]; intros aggregated Hc; cbv zeta.
  - simpl. rewrite app_nil_r. by destruct (crawl_loop _ _ _ _ _).
  - simpl in Hc. apply andb_true_iff in Hc as [Hk Hrest].
    change ((keyword :: rest) ++ after) with (keyword :: (rest ++ after)).
    rewrite crawl_loop_step. cbv zeta. simpl flat_map.
    pose proof (eq_refl (fetched_rows
      (fetch_for_keyword api keyword min_likes max_per_keyword))) as Hrows.
    unfold fetched_rows at 2 in Hrows.
    destruct (result (fetch_for_keyword api keyword min_likes max_per_keyword))
      as [rows|e] eqn:Hf; rewrite Hrows.
    + rewrite IH by done. cbv zeta. by rewrite <- !app_assoc.
    + rewrite Hk, IH by done. cbv zeta. by rewrite <- !app_assoc.
Qed.

(** X17.  A fetch that raises something that is no [Exception] (a
    cancellation, a keyboard interrupt) ends the run with it: the keywords
    after it are not fetched, the platform is left, and no file is
    written. *)
Theorem main_async_interrupted (w : world) (args : Namespace)
    ms_tokens before X after e :
  ensure_ms_tokens (getenv w) = Return ms_tokens →
  read_keywords_safe (files w) (input args) = Return (before ++ X :: after) →
  create_sessions (platform w) ms_tokens (length ms_tokens) 3 (browser_of w)
    = Return tt →
  contained (platform w) (min_likes args) (max_per_keyword args) before = true →
  let fetch := λ keyword,
    fetch_for_keyword (platform w) keyword (min_likes args)
                      (max_per_keyword args) in
  result (fetch X) = Raise e →
  is_Exception e = false →
  main_async w args
  = (ApiEnter :: CreateSessions ms_tokens (length ms_tokens) 3 (browser_of w)
       :: flat_map (λ k, trace (fetch k)) before ++ trace (fetch X) ++ [ApiExit],
     Raise e)
  ∧ fetches_of (trace (main_async w args))
    = map PyStr.lstrip_hash (before ++ [X])
  ∧ wrote_file (trace (main_async w args)) = false.
Proof.
  intros Ht Hk Hs Hc fetch HX He. subst fetch. cbv beta in *.
  assert (∀ api keyword min_likes max_results,
            wrote_file (trace (fetch_for_keyword api keyword min_likes
                                                 max_results)) = false)
    as Hquiet.
  { intros api keyword min_likes max_results.
    rewrite fetch_for_keyword_unfold. unfold wrote_file.
    cbn [trace fst existsb orb]. generalize (@nil dict).
    induction (hashtag_videos _ _ _) as [|v r IHr|e']; intros results;
      [done| |done].
    rewrite fetch_loop_step.
    destruct (video_row _ _ _) as [[row|]|e']; cbn; [| |done].
    - destruct (_ >=? _); cbn; [done|apply IHr].
    - apply IHr. }
  assert (main_async w args
          = (ApiEnter
               :: CreateSessions ms_tokens (length ms_tokens) 3 (browser_of w)
               :: flat_map (λ k, trace (fetch_for_keyword (platform w) k
                                          (min_likes args) (max_per_keyword args)))
                    before
                  ++ trace (fetch_for_keyword (platform w) X (min_likes args)
                              (max_per_keyword args)) ++ [ApiExit],
             Raise e)) as Heq.
  { unfold main_async. rewrite Ht, Hk. cbn [lift bind app].
    unfold browser_of in Hs. rewrite Hs.
    rewrite (crawl_loop_app _ _ _ _ _ [] Hc). cbv zeta.
    rewrite crawl_loop_step. cbv zeta. rewrite HX, He.
    cbn. by rewrite <- !app_assoc. }
  rewrite Heq. cbn [trace fst]. split; [done|]. split.
  - cbn [fetches_of]. rewrite !fetches_of_app. cbn [fetches_of].
    rewrite fetches_of_crawl, fetches_of_fetch, map_app.
    by rewrite app_nil_r.
  - unfold wrote_file. cbn [existsb orb].
    rewrite !existsb_app. cbn [existsb orb].
    rewrite !orb_false_r. apply orb_false_iff. split; [|apply Hquiet].
    clear -Hquiet. induction before as [|k rest IH]; [done|].
    simpl. rewrite existsb_app, IH, orb_false_r. apply Hquiet.
Qed.

Lemma main_async_interrupted_witness :
  fetches_of (trace (main_async Sample.w_cancelled Sample.args))
  = map PyStr.lstrip_hash (["#cats"] ++ ["dogs"])
  ∧ wrote_file (trace (main_async Sample.w_cancelled Sample.args)) = false.
Proof.
  apply (main_async_interrupted Sample.w_cancelled Sample.args
           ["tokA"; "tokB"] ["#cats"] "dogs" ["cats"]
           (NotAnException "CancelledError")
           eq_refl eq_refl eq_refl eq_refl eq_refl eq_refl).
Defined.

(** X18.  A run whose every fetch raises an [Exception], and whose output
    path can be opened, still ends well: it returns, and its last act is to
    write a file of the ten-column header alone. *)
Theorem main_async_all_fail (w : world) (args : Namespace) ms_tokens keywords :
  ensure_ms_tokens (getenv w) = Return ms_tokens →
  read_keywords_safe (files w) (input args) = Return keywords →
  create_sessions (platform w) ms_tokens (length ms_tokens) 3 (browser_of w)
    = Return tt →
  contained (platform w) (min_likes args) (max_per_keyword args) keywords
    = true →
  forallb (λ keyword,
             raises (result (fetch_for_keyword (platform w) keyword
                               (min_likes args) (max_per_keyword args))))
          keywords = true →
  outputs w (output args) = Return tt →
  result (main_async w args) = Return tt
  ∧ last (trace (main_async w args))
    = Some (WriteFile (output args) [map VStr DEFAULT_FIELDNAMES])
  ∧ length (fetches_of (trace (main_async w args))) = length keywords.
Proof.
  intros Ht Hk Hs Hc Hall Ho.
  rewrite (main_async_run w args ms_tokens keywords Ht Hk Hs Hc Ho).
  cbv zeta. rewrite fetched_rows_all_raise by done.
  cbn [result trace snd fst map]. split; [done|]. split.
  - rewrite !app_comm_cons. by rewrite last_app_cons.
  - cbn [fetches_of]. rewrite fetches_of_app, fetches_of_crawl.
    cbn [fetches_of]. by rewrite app_nil_r, length_map.
Qed.

Lemma main_async_all_fail_witness :
  result (main_async Sample.w_all_fail Sample.args) = Return tt
  ∧ last (trace (main_async Sample.w_all_fail Sample.args))
    = Some (WriteFile "out.csv" [map VStr DEFAULT_FIELDNAMES])
  ∧ length (fetches_of (trace (main_async Sample.w_all_fail Sample.args)))
    = length ["dogs"; "#dogs"].
Proof.
  apply (main_async_all_fail Sample.w_all_fail Sample.args
           ["tokA"; "tokB"] ["dogs"; "#dogs"]
           eq_refl eq_refl eq_refl eq_refl eq_refl eq_refl).
Defined.



(** X20.  When the output path cannot be opened, a run that passed its
    validations and opened its sessions still fetches every keyword, leaves
    the platform, and only then raises the error of the open: no file is
    written and the rows fetched are lost. *)
Theorem main_async_output_unopened (w : world) (args : Namespace)
    ms_tokens keywords e :
  ensure_ms_tokens (getenv w) = Return ms_tokens →
  read_keywords_safe (files w) (input args) = Return keywords →
  create_sessions (platform w) ms_tokens (length ms_tokens) 3 (browser_of w)
    = Return tt →
  contained (platform w) (min_likes args) (max_per_keyword args) keywords
    = true →
  outputs w (output args) = Raise e →
  main_async w args
  = (ApiEnter :: CreateSessions ms_tokens (length ms_tokens) 3 (browser_of w)
       :: flat_map (λ keyword,
                      trace (fetch_for_keyword (platform w) keyword
                               (min_likes args) (max_per_keyword args)))
                   keywords
       ++ [ApiExit],
     Raise e)
  ∧ fetches_of (trace (main_async w args)) = map PyStr.lstrip_hash keywords
  ∧ last (trace (main_async w args)) = Some ApiExit.
Proof.
  intros Ht Hk Hs Hc Ho.
  rewrite (main_async_crawled w args ms_tokens keywords Ht Hk Hs Hc).
  cbv zeta. rewrite (write_rows_unopened _ _ _ e Ho).
  cbn [trace result fst snd]. split; [done|]. split.
  - cbn [fetches_of]. rewrite fetches_of_app, fetches_of_crawl.
    cbn [fetches_of]. by rewrite app_nil_r.
  - rewrite !app_comm_cons. by rewrite last_snoc.
Qed.

Lemma main_async_output_unopened_witness :
  fetches_of (trace (main_async Sample.w Sample.args_no_output))
  = map PyStr.lstrip_hash ["#cats"; "dogs"]
  ∧ result (main_async Sample.w Sample.args_no_output) = Raise FileNotFoundError.
Proof.
  pose proof (main_async_output_unopened Sample.w Sample.args_no_output
                ["tokA"; "tokB"] ["#cats"; "dogs"] FileNotFoundError
                eq_refl eq_refl eq_refl eq_refl eq_refl) as (Heq & Hf & _).
  split; [exact Hf|]. by rewrite Heq.
Defined.
